(** * Beam search sampler of keras_nlp: a shallow embedding and its properties

    The development follows [keras_nlp/samplers/beam_sampler.py].  Tensors
    are lists (a 2-D tensor is the list of its rows), token ids are integers,
    and every tensor-library call that can raise (a reshape whose sizes
    disagree, an index out of range, a [top_k] wider than its input) is a
    partial function into [option].  Shapes that the tensor library would
    broadcast are treated as errors, except in the one place where the
    class docstring relies on broadcasting (the sum of the step
    log-probabilities with the running ones). *)

From stdpp Require Import base option list numbers sorting.

Set Default Proof Using "Type".

(** ** The tensor backend

    [keras_nlp.backend.ops] is an external library.  Its float32 scalars and
    the primitives the sampler calls on them form an interface; the sampler
    is written against it. *)
Class Ops (F : Type) := {
  f_zero : F;                                 (* the literal 0.0 *)
  f_sentinel : F;                             (* the literal -1e9 *)
  f_add : F → F → F;                          (* elementwise + *)
  f_log : F → F;                              (* ops.log *)
  f_neg : F → F;                              (* unary minus *)
  f_le : F → F → bool;                        (* the order of the scores *)
  top_k : nat → list F → list F * list nat;   (* ops.top_k on one row *)
  argsort : list F → list nat;                (* ops.argsort on one row *)
  argmax : list F → nat;                      (* ops.argmax on one row *)
  token_cast : nat → Z                        (* ops.cast of an index to the dtype of
                                                 the prompt, which is fixed for a call *)
}.

(** Modelled from the spec: the base class [Sampler] (keras_nlp/samplers/sampler.py)
    is not among the sources.  Of it the beam sampler uses the probability
    transform [compute_probabilities], "logits to normalized probabilities",
    which is kept abstract. *)
Record Sampler (F : Type) := {
  compute_probabilities : list (list F) → list (list F)
}.
Arguments compute_probabilities {F} _ _.

Record BeamSampler (F : Type) := {
  base : Sampler F;
  num_beams : Z;
  return_all_beams : bool
}.
Arguments base {F} _.
Arguments num_beams {F} _.
Arguments return_all_beams {F} _.

(** [BeamSampler.__init__]: stores its arguments, checks nothing. *)
Definition init {F} (super : Sampler F) (num_beams : Z) (return_all_beams : bool)
    : BeamSampler F :=
  {| base := super; num_beams := num_beams; return_all_beams := return_all_beams |}.

(** What [__call__] returns: the best sequence of every batch element, or
    all beams with their scores. *)
Inductive output (F : Type) :=
  | TopBeam (prompt : list (list Z))
  | AllBeams (sorted_prompts : list (list (list Z))) (sorted_log_probs : list (list F)).
Arguments TopBeam {F} _.
Arguments AllBeams {F} _ _.

(** ** Tensor helpers *)

(** [ops.shape(x)[1]] of a tensor given by its rows.  A tensor without rows
    is taken to have width 0. *)
Definition shape1 {A} (x : list (list A)) : nat :=
  match x with [] => 0 | r :: _ => length r end.

(** [n] consecutive chunks of [m] elements. *)
Fixpoint chunks {A} (n m : nat) (l : list A) : list (list A) :=
  match n with
  | 0 => []
  | S n' => take m l :: chunks n' m (drop m l)
  end.

(** [ops.reshape(x, (n, m) + rest)] of a tensor with leading axis [l]. *)
Definition reshape_rows {A} (n m : nat) (l : list A) : option (list (list A)) :=
  if decide (length l = n * m) then Some (chunks n m l) else None.

(** [ops.reshape(x, [n, -1])] on the flattened data. *)
Definition reshape_infer {A} (n : nat) (l : list A) : option (list (list A)) :=
  if decide (n = 0) then None
  else if decide (length l `mod` n = 0) then Some (chunks n (length l `div` n) l)
  else None.

(** [ops.take_along_axis(x, indices, axis=1)]. *)
Definition take_along_axis {A} (x : list (list A)) (indices : list (list nat))
    : option (list (list A)) :=
  if decide (length x = length indices)
  then mapM (λ '(xb, ib), mapM (λ i, xb !! i) ib) (zip x indices)
  else None.

(** [x[:, index]]. *)
Definition column {A} (index : nat) (x : list (list A)) : option (list A) :=
  mapM (λ row, row !! index) x.

(** [ops.where(c, x, y)] on vectors of one length. *)
Definition where_ {A} (c : list bool) (x y : list A) : option (list A) :=
  if decide (length c = length x ∧ length x = length y)
  then Some (zip_with (λ (cx : bool * A) yv, if cx.1 then cx.2 else yv) (zip c x) y)
  else None.

(** [ops.slice_update(prompt, [0, index], next_token[:, None])]. *)
Definition slice_update {A} (index : nat) (prompt : list (list A)) (col : list A)
    : list (list A) :=
  zip_with (λ row t, <[index := t]> row) prompt col.

(** The shape two leading dimensions broadcast to. *)
Definition broadcast_dim (r n : nat) : option nat :=
  if decide (r = n) then Some n
  else if decide (r = 1) then Some n
  else if decide (n = 1) then Some r
  else None.

Definition broadcast_to {A} (m : nat) (l : list A) : list A :=
  if decide (length l = m) then l
  else match l with [x] => replicate m x | _ => l end.

(** ** The sampler *)

Section sampler.
Context {F : Type} `{!Ops F}.
(** [C] is a row of a cache tensor, [H] the oracle's auxiliary output. *)
Context {C H : Type}.

(** The step oracle [next(prompt, cache, index)]. *)
Definition oracle : Type :=
  list (list Z) → list (list (list C)) → nat →
  list (list F) * H * list (list (list C)).

(** The loop variables [(prompt, cache, index, log_probs)]. *)
Record loop_vars := {
  lv_prompt : list (list Z);
  lv_cache : list (list (list C));
  lv_index : nat;
  lv_log_probs : list F
}.

Section call.
Variable self : BeamSampler F.
Variable next : oracle.
Variable batch_size : nat.

(** After a successful [create_beams] the number of beams is a natural
    number. *)
Definition beams : nat := Z.to_nat (num_beams self).

(** [ops.repeat(x, self.num_beams, axis=0)]: every row [num_beams]
    times in a row; a negative count raises. *)
Definition create_beams {A} (x : list A) : option (list A) :=
  if decide (num_beams self < 0)%Z then None
  else Some (x ≫= replicate beams).

(** [ops.reshape(x, (batch_size * num_beams,) + shape(x)[2:])]. *)
Definition flatten_beams {A} (x : list (list A)) : option (list A) :=
  if decide (length (concat x) = batch_size * beams) then Some (concat x) else None.

(** [ops.reshape(x, (batch_size, num_beams) + shape(x)[1:])]. *)
Definition unflatten_beams {A} (x : list A) : option (list (list A)) :=
  reshape_rows batch_size beams x.

(** The initial beam log-likelihoods. *)
Definition initial_log_probs : option (list F) :=
  let log_probs := [f_zero :: replicate (Z.to_nat (num_beams self - 1)) f_sentinel] in
  flatten_beams (log_probs ≫= replicate batch_size).

(** The originating beam and the token of a selected candidate. *)
Definition beam_of (vocab_size index : nat) : nat := index `div` vocab_size.
Definition token_of (vocab_size index : nat) : nat := index `mod` vocab_size.

Section loop.
Variable mask : list (list bool).
Variable end_token_id : option Z.
Variable has_cache : bool.

(** Does a row hold the end token at a position that is not fixed? *)
Definition row_done (e : Z) (row : list Z) (mrow : list bool) : bool :=
  existsb (λ tm : Z * bool, bool_decide (tm.1 = e) && negb tm.2) (zip row mrow).

Definition same_shape {A B} (x : list (list A)) (y : list (list B)) : bool :=
  bool_decide (length <$> x = length <$> y).

Definition cond (s : loop_vars) : option bool :=
  match end_token_id with
  | None => Some true
  | Some e =>
      if same_shape (lv_prompt s) mask then
        let prompt_done := zip_with (row_done e) (lv_prompt s) mask in
        Some (negb (forallb id prompt_done))
      else None
  end.

(** [gather_beams]: reorder the beams of every batch element. *)
Definition gather_beams {A} (beam_indices : list (list nat)) (x : list A)
    : option (list A) :=
  x ← unflatten_beams x;
  x ← take_along_axis x beam_indices;
  flatten_beams x.

(** [ops.top_k(x, k, sorted=False)] on every row; it raises when a row
    has fewer than [k] entries. *)
Definition top_k_rows (k : nat) (x : list (list F)) : option (list (list F * list nat)) :=
  mapM (λ row, if decide (k ≤ length row) then Some (top_k k row) else None) x.

(** One step.  The [tf.ensure_shape] work-around of the source asserts a
    static shape and changes no value; the reshape in [flatten_beams]
    checks the same size. *)
Definition body (s : loop_vars) : option loop_vars :=
  let '(logits, _, cache) := next (lv_prompt s) (lv_cache s) (lv_index s) in
  let vocab_size := shape1 logits in
  let probs := compute_probabilities (base self) logits in
  (* ops.log(probs) + log_probs[..., None] *)
  m ← broadcast_dim (length probs) (length (lv_log_probs s));
  let next_log_probs : list (list F) :=
    zip_with (λ (row : list F) (lp : F), map (λ p, f_add (f_log p) lp) row)
             (broadcast_to m probs) (broadcast_to m (lv_log_probs s)) in
  next_log_probs ← reshape_infer batch_size (concat next_log_probs);
  selected ← top_k_rows beams next_log_probs;
  let next_log_probs : list (list F) := map fst selected in
  let indices : list (list nat) := map snd selected in
  let beam_indices : list (list nat) := map (map (beam_of vocab_size)) indices in
  next_token ← flatten_beams (map (map (token_of vocab_size)) indices);
  log_probs ← flatten_beams next_log_probs;
  prompt ← gather_beams beam_indices (lv_prompt s);
  cache ← (if has_cache then mapM (gather_beams beam_indices) cache else Some cache);
  let next_token : list Z := map token_cast next_token in
  mask_col ← column (lv_index s) mask;
  prompt_col ← column (lv_index s) prompt;
  next_token ← where_ mask_col prompt_col next_token;
  let prompt := slice_update (lv_index s) prompt next_token in
  Some {| lv_prompt := prompt; lv_cache := cache;
          lv_index := lv_index s + 1; lv_log_probs := log_probs |}.
End loop.
End call.

(** Modelled from the spec: [Sampler.run_loop] (keras_nlp/samplers/sampler.py)
    is not among the sources.  The spec has the termination test
    "evaluated before each step" and the loop "bounded regardless by"
    [maximum_iterations].  The first component of the result counts the
    executions of [body]; the sampler never reads it. *)
Fixpoint run_loop {V} (cond : V → option bool) (body : V → option V)
    (maximum_iterations : nat) (vars : V) : option (nat * V) :=
  match maximum_iterations with
  | 0 => Some (0, vars)
  | S n =>
      match cond vars with
      | None => None
      | Some false => Some (0, vars)
      | Some true =>
          match body vars with
          | None => None
          | Some vars =>
              match run_loop cond body n vars with
              | None => None
              | Some (steps, vars) => Some (S steps, vars)
              end
          end
      end
  end.

(** [ops.zeros_like(prompt, dtype="bool")]. *)
Definition zeros_like (prompt : list (list Z)) : list (list bool) :=
  map (map (λ _, false)) prompt.

(** [BeamSampler.__call__] up to and including the loop: the number of
    steps taken and the final loop variables. *)
Definition call_loop (self : BeamSampler F) (next : oracle)
    (prompt : list (list Z)) (cache : option (list (list (list C))))
    (index : nat) (mask : option (list (list bool))) (end_token_id : option Z)
    : option (nat * loop_vars) :=
  let batch_size := length prompt in
  let max_length := shape1 prompt in
  let mask := default (zeros_like prompt) mask in
  let has_cache := bool_decide (is_Some cache) in
  let cache := default [] cache in
  prompt ← create_beams self prompt;
  mask ← create_beams self mask;
  cache ← mapM (create_beams self) cache;
  log_probs ← initial_log_probs self batch_size;
  run_loop (cond mask end_token_id)
           (body self next batch_size mask has_cache)
           (max_length - index)
           {| lv_prompt := prompt; lv_cache := cache;
              lv_index := index; lv_log_probs := log_probs |}.

(** The rest of [__call__]: pick the best beam, or sort all of them. *)
Definition select (self : BeamSampler F) (batch_size : nat) (s : loop_vars)
    : option (output F) :=
  all_prompts ← unflatten_beams self batch_size (lv_prompt s);
  all_log_probs ← unflatten_beams self batch_size (lv_log_probs s);
  if return_all_beams self then
    let sorted_indices := map (λ row, argsort (map f_neg row)) all_log_probs in
    sorted_log_probs ← take_along_axis all_log_probs sorted_indices;
    sorted_prompts ← take_along_axis all_prompts sorted_indices;
    Some (AllBeams sorted_prompts sorted_log_probs)
  else
    let top_beams := map (λ row, [argmax row]) all_log_probs in
    prompt ← take_along_axis all_prompts top_beams;
    Some (TopBeam (concat prompt)).

(** [BeamSampler.__call__].  [hidden_states] is accepted and never read. *)
Definition call (self : BeamSampler F) (next : oracle)
    (prompt : list (list Z)) (cache : option (list (list (list C))))
    (index : nat) (mask : option (list (list bool))) (end_token_id : option Z)
    (hidden_states : option H) : option (output F) :=
  r ← call_loop self next prompt cache index mask end_token_id;
  select self (length prompt) r.2.
End sampler.

Arguments oracle : clear implicits.
Arguments loop_vars : clear implicits.

(** ** A backend that computes

    Scores are integers; [top_k] and [argsort] go through a stable merge
    sort of the positions, [argmax] takes the first greatest entry. *)
Module IntBackend.
Definition by_score_desc (l : list Z) (i j : nat) : Prop :=
  (l !!! j ≤ l !!! i)%Z.
Definition by_score_asc (l : list Z) (i j : nat) : Prop :=
  (l !!! i ≤ l !!! j)%Z.

Global Instance by_score_desc_dec l i j : Decision (by_score_desc l i j).
Proof. unfold by_score_desc. apply _. Defined.
Global Instance by_score_asc_dec l i j : Decision (by_score_asc l i j).
Proof. unfold by_score_asc. apply _. Defined.

Definition int_argsort (l : list Z) : list nat :=
  merge_sort (by_score_asc l) (seq 0 (length l)).

Definition int_top_k (k : nat) (l : list Z) : list Z * list nat :=
  let indices := take k (merge_sort (by_score_desc l) (seq 0 (length l))) in
  (map (λ i, l !!! i) indices, indices).

Definition int_argmax (l : list Z) : nat :=
  default 0 (head (merge_sort (by_score_desc l) (seq 0 (length l)))).

Global Instance int_ops : Ops Z := {|
  f_zero := 0%Z;
  f_sentinel := (-1000000000)%Z;
  f_add := Z.add;
  f_log := λ p, (p - 1000)%Z;
  f_neg := Z.opp;
  f_le := Z.leb;
  top_k := int_top_k;
  argsort := int_argsort;
  argmax := int_argmax;
  token_cast := Z.of_nat
|}.

(** A probability transform that leaves its argument as it is. *)
Definition int_sampler : Sampler Z := {| compute_probabilities := id |}.

(** An oracle whose logits grow with the token id, the same for every
    row, with no cache and no auxiliary output. *)
Definition ramp (vocab_size : nat) : oracle Z unit unit :=
  λ prompt cache index,
    (map (λ _, map Z.of_nat (seq 0 vocab_size)) prompt, (), cache).
End IntBackend.

(** ** A backend that rounds

    The integer backend, except that a sum is rounded down to a multiple
    of ten, the way a floating-point sum is rounded to a representable
    number: the sum still grows with its arguments, but distinct scores can
    come out equal. *)
Module RoundingBackend.


End RoundingBackend.

(** ** Definitions used to state the properties *)

Section statements.
Context {F : Type} `{!Ops F}.

(** The termination test read per batch element: go on while some batch
    element has no finished beam. *)
Definition cond_by_batch_element {C} (self : BeamSampler F) (batch_size : nat)
    (mask : list (list bool)) (e : Z) (s : loop_vars F C) : option bool :=
  if same_shape (lv_prompt s) mask then
    let prompt_done := zip_with (row_done e) (lv_prompt s) mask in
    per_element ← unflatten_beams self batch_size prompt_done;
    Some (negb (forallb (existsb id) per_element))
  else None.


(** The contract of [ops.top_k]: [k] positions, and every entry is at
    most the entry at a selected position unless it is selected itself. *)
Definition top_k_shape : Prop :=
  ∀ k (l : list F), k ≤ length l → length (top_k k l).2 = k.





(** A greater running log-likelihood comes from a greater probability.
    The logarithm and the sum have this property as real functions; a
    backend that rounds need not have it (see [RoundingBackend]). *)
Definition score_order_reflected : Prop :=
  ∀ x y c : F, f_le (f_add (f_log x) c) (f_add (f_log y) c) = true → f_le x y = true.

End statements.

(** Position [p] of batch element [b] is kept: it lies before the start
    position, or the mask fixes it. *)
Definition kept (mask : list (list bool)) (start : nat) (b p : nat) : Prop :=
  p < start ∨ ∃ mrow, mask !! b = Some mrow ∧ mrow !! p = Some true.

(** A row agrees with the prompt of batch element [b] on the kept
    positions. *)
Definition agrees (prompt : list (list Z)) (mask : list (list bool)) (start : nat)
    (b : nat) (row : list Z) : Prop :=
  ∃ orow, prompt !! b = Some orow ∧ ∀ p, kept mask start b p → row !! p = orow !! p.

(** Every beam of a flattened prompt agrees with the prompt of its batch
    element. *)
Definition beams_agree (nb : nat) (prompt : list (list Z)) (mask : list (list bool))
    (start : nat) (flat : list (list Z)) : Prop :=
  ∀ b j row, j < nb → flat !! (b * nb + j) = Some row → agrees prompt mask start b row.

(** The rows an output holds for batch element [b]. *)
Definition rows_of {F} (out : output F) (b : nat) (row : list Z) : Prop :=
  match out with
  | TopBeam prompt => prompt !! b = Some row
  | AllBeams sorted_prompts _ => ∃ rows j, sorted_prompts !! b = Some rows ∧ rows !! j = Some row
  end.

(** Every beam of a flattened tensor has the property its batch element
    asks for. *)
Definition beams_satisfy (nb : nat) (P : nat → list Z → Prop) (flat : list (list Z)) : Prop :=
  ∀ b j row, j < nb → flat !! (b * nb + j) = Some row → P b row.

(** A row has the length of the prompt of batch element [b] and holds its
    tokens from position [from] on. *)
Definition same_from (prompt : list (list Z)) (from : nat) (b : nat) (row : list Z) : Prop :=
  ∃ orow, prompt !! b = Some orow ∧ length row = length orow ∧
    ∀ p, from ≤ p → row !! p = orow !! p.

Section more_statements.
Context {F : Type} `{!Ops F}.

(** The contract of [ops.argmax] on a row that is not empty: a position of
    the row, and every other entry is at most the entry there. *)
Definition argmax_in_range : Prop :=
  ∀ l : list F, l ≠ [] → argmax l < length l.

Definition argmax_greatest : Prop :=
  ∀ (l : list F) j x y, j ≠ argmax l →
    l !! j = Some x → l !! argmax l = Some y → f_le x y = true.


End more_statements.

Section more_definitions.
Context {F : Type} `{!Ops F} {C H : Type}.


(** The first half of [body] (lines 161 to 173): the vocabulary size and,
    for every batch element, the values and the positions [top_k] selects
    among its candidates. *)
Definition select_candidates (self : BeamSampler F) (next : oracle F C H)
    (batch_size : nat) (s : loop_vars F C) : option (nat * list (list F * list nat)) :=
  let '(logits, _, cache) := next (lv_prompt s) (lv_cache s) (lv_index s) in
  let vocab_size := shape1 logits in
  let probs := compute_probabilities (base self) logits in
  m ← broadcast_dim (length probs) (length (lv_log_probs s));
  let next_log_probs : list (list F) :=
    zip_with (λ (row : list F) (lp : F), map (λ p, f_add (f_log p) lp) row)
             (broadcast_to m probs) (broadcast_to m (lv_log_probs s)) in
  next_log_probs ← reshape_infer batch_size (concat next_log_probs);
  selected ← top_k_rows (beams self) next_log_probs;
  Some (vocab_size, selected).
End more_definitions.

(** ** Candidate indices *)

(** C8: a candidate index below [num_beams * vocab_size] is recovered from
    its beam (the quotient by the vocabulary size) and its token (the
    remainder); the beam is below [num_beams], the token below the
    vocabulary size. *)
Theorem candidate_index_decomposition (num_beams vocab_size i : nat) :
  i < num_beams * vocab_size →
  beam_of vocab_size i * vocab_size + token_of vocab_size i = i ∧
  beam_of vocab_size i < num_beams ∧
  token_of vocab_size i < vocab_size.
Proof.
  intros Hi. unfold beam_of, token_of.
  assert (vocab_size ≠ 0) as Hv by (intros ->; lia).
  split_and!.
  - pose proof (Nat.div_mod i vocab_size Hv). lia.
  - apply Nat.Div0.div_lt_upper_bound. lia.
  - by apply Nat.mod_upper_bound.
Qed.

Lemma candidate_index_decomposition_witness :
  17 < 5 * 26 ∧
  beam_of 26 17 * 26 + token_of 26 17 = 17 ∧ beam_of 26 17 < 5 ∧ token_of 26 17 < 26.
Proof.
  split; [lia|]. apply (candidate_index_decomposition 5 26 17). lia.
Defined.

(** ** Lists as tensors: positions in flattened and unflattened form *)

Section tensors.
Context {A : Type}.
Implicit Types (l : list A) (X : list (list A)).

Lemma length_chunks n m l : length (chunks n m l) = n.
Proof. revert l. induction n as [|n IH]; intros l; simpl; [done|]. by rewrite IH. Qed.

Lemma lookup_chunks n m l b j xb x :
  chunks n m l !! b = Some xb → xb !! j = Some x →
  j < m ∧ l !! (b * m + j) = Some x.
Proof.
  revert l b. induction n as [|n IH]; intros l b Hb Hj; simpl in *; [done|].
  destruct b as [|b]; simplify_eq/=.
  - apply lookup_take_Some in Hj as [??]. done.
  - destruct (IH _ _ Hb Hj) as [? Hl]. split; [done|].
    rewrite lookup_drop in Hl. rewrite <- Hl. f_equal. lia.
Qed.

Lemma Forall_length_chunks n m l :
  length l = n * m → Forall (λ xb, length xb = m) (chunks n m l).
Proof.
  revert l. induction n as [|n IH]; intros l Hl; simpl; constructor.
  - rewrite length_take. lia.
  - apply IH. rewrite length_drop. lia.
Qed.

Lemma lookup_concat_uniform X m r x :
  Forall (λ xb, length xb = m) X → concat X !! r = Some x →
  ∃ b j xb, r = b * m + j ∧ j < m ∧ X !! b = Some xb ∧ xb !! j = Some x.
Proof.
  intros HX. revert r. induction HX as [|xb X Hxb _ IH]; intros r Hr; simpl in *; [done|].
  apply lookup_app_Some in Hr as [Hr|[Hge Hr]].
  - exists 0, r, xb. split_and!; try done. apply lookup_lt_Some in Hr. lia.
  - destruct (IH _ Hr) as (b & j & yb & Hrb & Hj & Hb & Hy).
    exists (S b), j, yb. split_and!; try done. simpl. lia.
Qed.

Lemma length_concat_uniform X m :
  Forall (λ xb, length xb = m) X → length (concat X) = length X * m.
Proof. induction 1; simpl; [done|]. rewrite length_app. lia. Qed.

Lemma lookup_bind_replicate l n b j :
  j < n → (l ≫= replicate n) !! (b * n + j) = l !! b.
Proof.
  intros Hj. revert b. induction l as [|x l IH]; intros b; [done|].
  change ((x :: l) ≫= replicate n) with (replicate n x ++ (l ≫= replicate n)).
  destruct b as [|b]; simpl.
  - rewrite lookup_app_l by (rewrite length_replicate; lia).
    by apply lookup_replicate_2.
  - rewrite lookup_app_r by (rewrite length_replicate; lia).
    rewrite length_replicate. rewrite <- IH. f_equal. lia.
Qed.

Lemma length_bind_replicate l n : length (l ≫= replicate n) = length l * n.
Proof.
  induction l as [|x l IH]; [done|].
  change ((x :: l) ≫= replicate n) with (replicate n x ++ (l ≫= replicate n)).
  rewrite length_app, length_replicate, IH. simpl. lia.
Qed.

(** A position of a flattened tensor names one batch element and one
    beam. *)
Lemma flat_position_unique n b j b' j' :
  j < n → j' < n → b * n + j = b' * n + j' → b = b' ∧ j = j'.
Proof. intros. assert (b = b') by nia. subst. lia. Qed.
End tensors.

Lemma lookup_concat_uniform_2 {A} (X : list (list A)) m b j xb x :
  Forall (λ xb, length xb = m) X → X !! b = Some xb → xb !! j = Some x →
  concat X !! (b * m + j) = Some x.
Proof.
  intros HX. revert b. induction HX as [|yb X Hyb _ IH]; intros b Hb Hj; [done|].
  destruct b as [|b]; simplify_eq/=.
  - by apply lookup_app_l_Some.
  - rewrite lookup_app_r by lia.
    rewrite <- (IH b Hb Hj). f_equal. lia.
Qed.

(** ** The initial log-probabilities *)

Section initial.
Context {F : Type} `{!Ops F}.

Lemma initial_log_probs_eq (self : BeamSampler F) (B : nat) :
  (1 ≤ num_beams self)%Z →
  initial_log_probs self B =
    Some (concat (replicate B (f_zero :: replicate (beams self - 1) f_sentinel))).
Proof.
  intros Hnb. unfold initial_log_probs, flatten_beams, beams.
  replace (Z.to_nat (num_beams self - 1)) with (Z.to_nat (num_beams self) - 1) by lia.
  change ([?r] ≫= replicate B) with (replicate B r ++ []).
  rewrite app_nil_r.
  rewrite decide_True; [done|].
  rewrite (length_concat_uniform _ (Z.to_nat (num_beams self))).
  - by rewrite length_replicate.
  - apply Forall_replicate. simpl. rewrite length_replicate. lia.
Qed.

End initial.

(** ** The termination test *)

Section termination_test.
Context {F : Type} `{!Ops F} {C : Type}.

Lemma row_done_true e (row : list Z) (mrow : list bool) :
  row_done e row mrow = true ↔
  ∃ p, row !! p = Some e ∧ mrow !! p = Some false.
Proof.
  unfold row_done. rewrite existsb_exists. split.
  - intros ([t m] & Hin & Hb). apply list_elem_of_In, list_elem_of_lookup in Hin as [p Hp].
    apply lookup_zip_with_Some in Hp as (t' & m' & ? & Ht & Hm). simplify_eq/=.
    apply andb_true_iff in Hb as [Ht' Hm']. apply bool_decide_eq_true in Ht'.
    apply negb_true_iff in Hm'. subst. eauto.
  - intros (p & Ht & Hm). exists (e, false). split.
    + apply list_elem_of_In, list_elem_of_lookup. exists p.
      apply lookup_zip_with_Some. eauto.
    + simpl. by rewrite bool_decide_eq_true_2.
Qed.

Lemma forallb_id_false (l : list bool) :
  forallb id l = false → ∃ r, l !! r = Some false.
Proof.
  induction l as [|[] l IH]; simpl; [done| |by exists 0].
  intros [r Hr]%IH. by exists (S r).
Qed.

Lemma same_shape_length {A B} (x : list (list A)) (y : list (list B)) :
  same_shape x y = true → length x = length y.
Proof.
  unfold same_shape. intros Hs%bool_decide_eq_true.
  by rewrite <- (length_fmap length x), Hs, length_fmap.
Qed.

(** C1, as the code has it: with an end token configured the loop goes on
    while at least one beam (a row of the flattened prompt, of whichever
    batch element) has no end token at a position that is not fixed, and
    stops once every beam of every batch element has one. *)
Theorem cond_all_beams (mask : list (list bool)) (e : Z) (s : loop_vars F C) :
  same_shape (lv_prompt s) mask = true →
  ∃ continue, cond mask (Some e) s = Some continue ∧
    (continue = false ↔
       ∀ r row mrow, lv_prompt s !! r = Some row → mask !! r = Some mrow →
         ∃ p, row !! p = Some e ∧ mrow !! p = Some false) ∧
    (continue = true ↔
       ∃ r row mrow, lv_prompt s !! r = Some row ∧ mask !! r = Some mrow ∧
         ∀ p, ¬ (row !! p = Some e ∧ mrow !! p = Some false)).
Proof.
  intros Hshape. unfold cond. rewrite Hshape. eexists. split; [done|].
  assert (forallb id (zip_with (row_done e) (lv_prompt s) mask) = true ↔
          ∀ r row mrow, lv_prompt s !! r = Some row → mask !! r = Some mrow →
            ∃ p, row !! p = Some e ∧ mrow !! p = Some false) as Hall.
  { rewrite forallb_forall. split.
    - intros Hin r row mrow Hrow Hmrow. apply row_done_true, (Hin (row_done e row mrow)).
      apply list_elem_of_In, list_elem_of_lookup. exists r.
      apply lookup_zip_with_Some. eauto.
    - intros Hrows d Hd. apply list_elem_of_In, list_elem_of_lookup in Hd as [r Hr].
      apply lookup_zip_with_Some in Hr as (row & mrow & -> & Hrow & Hmrow).
      apply row_done_true. eauto. }
  split.
  - rewrite negb_false_iff. done.
  - rewrite negb_true_iff. split.
    + intros Hnot. apply forallb_id_false in Hnot as [r Hr].
      apply lookup_zip_with_Some in Hr as (row & mrow & Hfalse & Hrow & Hmrow).
      exists r, row, mrow. split_and!; [done..|]. intros p Hp.
      assert (row_done e row mrow = true) as Htrue by (apply row_done_true; eauto).
      congruence.
    + intros (r & row & mrow & Hrow & Hmrow & Hno).
      apply not_true_iff_false. rewrite Hall. intros Hrows.
      destruct (Hrows r row mrow Hrow Hmrow) as [p Hp]. by apply (Hno p).
Qed.
End termination_test.

Lemma cond_all_beams_witness :
  let s : loop_vars Z unit :=
    {| lv_prompt := [[7]; [3]]%Z; lv_cache := []; lv_index := 1; lv_log_probs := [0; 0]%Z |} in
  let mask := [[false]; [false]] in
  same_shape (lv_prompt s) mask = true ∧
  ∃ continue, cond mask (Some 7%Z) s = Some continue ∧
    (continue = false ↔
       ∀ r row mrow, lv_prompt s !! r = Some row → mask !! r = Some mrow →
         ∃ p, row !! p = Some 7%Z ∧ mrow !! p = Some false) ∧
    (continue = true ↔
       ∃ r row mrow, lv_prompt s !! r = Some row ∧ mask !! r = Some mrow ∧
         ∀ p, ¬ (row !! p = Some 7%Z ∧ mrow !! p = Some false)).
Proof.
  intros s mask.
  assert (same_shape (lv_prompt s) mask = true) as Hshape by reflexivity.
  split; [exact Hshape|].
  exact (cond_all_beams mask 7%Z s Hshape).
Defined.

(** C1, as the claim has it, fails: one batch element with two beams, the
    end token 7 generated in the first beam only.  The batch element has a
    finished beam, so the test read per batch element stops; the code goes
    on. *)
Lemma cond_not_by_batch_element :
  let s : loop_vars Z unit :=
    {| lv_prompt := [[7]; [3]]%Z; lv_cache := []; lv_index := 1; lv_log_probs := [0; 0]%Z |} in
  let mask := [[false]; [false]] in
  cond mask (Some 7%Z) s = Some true ∧
  cond_by_batch_element (init IntBackend.int_sampler 2 false) 1 mask 7%Z s = Some false.
Proof. split; reflexivity. Qed.

(** ** One step of the loop *)

Section step.
Context {F : Type} `{!Ops F} {C H : Type}.
Variable self : BeamSampler F.
Variable next : oracle F C H.
Variable B : nat.
Variable mask : list (list bool).
Variable has_cache : bool.

(** What a successful step did. *)
Lemma body_Some (s s' : loop_vars F C) :
  body self next B mask has_cache s = Some s' →
  ∃ candidates selected next_token prompt1 mask_col prompt_col written,
    let vocab_size := shape1 (next (lv_prompt s) (lv_cache s) (lv_index s)).1.1 in
    top_k_rows (beams self) candidates = Some selected ∧
    flatten_beams self B (map (map (token_of vocab_size)) (map snd selected))
      = Some next_token ∧
    gather_beams self B (map (map (beam_of vocab_size)) (map snd selected)) (lv_prompt s)
      = Some prompt1 ∧
    column (lv_index s) mask = Some mask_col ∧
    column (lv_index s) prompt1 = Some prompt_col ∧
    where_ mask_col prompt_col (map token_cast next_token) = Some written ∧
    lv_prompt s' = slice_update (lv_index s) prompt1 written ∧
    lv_index s' = lv_index s + 1.
Proof.
  unfold body. destruct (next _ _ _) as [[logits h] cache]. simpl.
  intros Hb.
  apply bind_Some in Hb as (m & _ & Hb).
  apply bind_Some in Hb as (candidates & _ & Hb).
  apply bind_Some in Hb as (selected & Hsel & Hb).
  apply bind_Some in Hb as (next_token & Htok & Hb).
  apply bind_Some in Hb as (log_probs & _ & Hb).
  apply bind_Some in Hb as (prompt1 & Hgather & Hb).
  apply bind_Some in Hb as (cache1 & _ & Hb).
  apply bind_Some in Hb as (mask_col & Hmc & Hb).
  apply bind_Some in Hb as (prompt_col & Hpc & Hb).
  apply bind_Some in Hb as (written & Hw & Hb).
  simplify_eq/=. by exists candidates, selected, next_token, prompt1, mask_col, prompt_col, written.
Qed.

Lemma body_index (s s' : loop_vars F C) :
  body self next B mask has_cache s = Some s' → lv_index s' = lv_index s + 1.
Proof.
  intros (? & ? & ? & ? & ? & ? & ? & Hrest)%body_Some.
  cbv zeta in Hrest. by destruct Hrest as (_ & _ & _ & _ & _ & _ & _ & Hi).
Qed.
End step.

(** ** The loop *)

Section loop_facts.
Context {V : Type}.
Variable cond : V → option bool.
Variable body : V → option V.

Lemma run_loop_steps_le n s steps s' :
  run_loop cond body n s = Some (steps, s') → steps ≤ n.
Proof.
  revert s steps. induction n as [|n IH]; intros s steps Hr; simpl in *.
  - simplify_eq. lia.
  - destruct (cond s) as [[]|]; simplify_eq; [|lia].
    destruct (body s) as [s1|]; simplify_eq.
    destruct (run_loop cond body n s1) as [[k r]|] eqn:Hk; simplify_eq.
    apply IH in Hk. lia.
Qed.

(** An invariant of the body holds after the loop. *)
Lemma run_loop_invariant (P : V → Prop) n s steps s' :
  (∀ s s', P s → body s = Some s' → P s') →
  P s → run_loop cond body n s = Some (steps, s') → P s'.
Proof.
  intros Hstep. revert s steps. induction n as [|n IH]; intros s steps Hs Hr; simpl in *.
  - by simplify_eq.
  - destruct (cond s) as [[]|]; simplify_eq; [|done].
    destruct (body s) as [s1|] eqn:Hb; simplify_eq.
    destruct (run_loop cond body n s1) as [[k r]|] eqn:Hk; simplify_eq.
    eapply IH; [|done]. eauto.
Qed.

Lemma run_loop_counter (idx : V → nat) n s steps s' :
  (∀ s s', body s = Some s' → idx s' = idx s + 1) →
  run_loop cond body n s = Some (steps, s') → idx s' = idx s + steps.
Proof.
  intros Hstep. revert s steps. induction n as [|n IH]; intros s steps Hr; simpl in *.
  - simplify_eq. lia.
  - destruct (cond s) as [[]|]; simplify_eq; [|lia].
    destruct (body s) as [s1|] eqn:Hb; simplify_eq.
    destruct (run_loop cond body n s1) as [[k r]|] eqn:Hk; simplify_eq.
    apply IH in Hk. apply Hstep in Hb. lia.
Qed.
End loop_facts.

Section call_facts.
Context {F : Type} `{!Ops F} {C H : Type}.

(** What a successful [call_loop] ran. *)
Lemma call_loop_Some (self : BeamSampler F) (next : oracle F C H) prompt cache index
    mask e steps (s : loop_vars F C) :
  call_loop self next prompt cache index mask e = Some (steps, s) →
  (0 ≤ num_beams self)%Z ∧
  ∃ cache0 log_probs,
    run_loop (cond (default (zeros_like prompt) mask ≫= replicate (beams self)) e)
             (body self next (length prompt)
                   (default (zeros_like prompt) mask ≫= replicate (beams self))
                   (bool_decide (is_Some cache)))
             (shape1 prompt - index)
             {| lv_prompt := prompt ≫= replicate (beams self); lv_cache := cache0;
                lv_index := index; lv_log_probs := log_probs |}
      = Some (steps, s).
Proof.
  unfold call_loop, create_beams. intros Hc.
  case_decide; [done|]. simpl in Hc.
  apply bind_Some in Hc as (cache0 & _ & Hc).
  apply bind_Some in Hc as (log_probs & _ & Hc).
  split; [lia|]. eauto.
Qed.

(** C4: the loop takes at most [length - start_index] steps, whatever the
    end token and the oracle; the position advances by one per step. *)
Theorem loop_bounded (self : BeamSampler F) (next : oracle F C H) prompt cache index
    mask end_token_id steps (s : loop_vars F C) :
  call_loop self next prompt cache index mask end_token_id = Some (steps, s) →
  steps ≤ shape1 prompt - index ∧ lv_index s = index + steps.
Proof.
  intros (_ & cache0 & log_probs & Hrun)%call_loop_Some. split.
  - by eapply run_loop_steps_le.
  - eapply (run_loop_counter _ _ lv_index) in Hrun; [done|].
    intros ??. apply body_index.
Qed.
End call_facts.

Lemma loop_bounded_witness :
  ∃ steps s,
    call_loop (init IntBackend.int_sampler 2 true) (IntBackend.ramp 3)
      [[7; 7; 0; 0; 0; 0]; [8; 8; 0; 0; 0; 0]]%Z None 2 None None = Some (steps, s) ∧
    steps ≤ 6 - 2 ∧ lv_index s = 2 + steps.
Proof.
  destruct (call_loop (init IntBackend.int_sampler 2 true) (IntBackend.ramp 3)
      [[7; 7; 0; 0; 0; 0]; [8; 8; 0; 0; 0; 0]]%Z None 2 None None) as [[steps s]|] eqn:Hc.
  - exists steps, s. split; [reflexivity|]. exact (loop_bounded _ _ _ _ _ _ _ _ _ Hc).
  - vm_compute in Hc. discriminate Hc.
Defined.

(** ** Fewer than one beam *)

Section no_beams.
Context {F : Type} `{!Ops F} {C H : Type}.



End no_beams.


(** ** The auxiliary output of the oracle *)

Section auxiliary.
Context {F : Type} `{!Ops F} {C H1 H2 : Type}.

Lemma run_loop_ext {V} (cond : V → option bool) (body1 body2 : V → option V) n s :
  (∀ s, body1 s = body2 s) → run_loop cond body1 n s = run_loop cond body2 n s.
Proof.
  intros Hext. revert s. induction n as [|n IH]; intros s; simpl; [done|].
  destruct (cond s) as [[]|]; [|done..].
  rewrite Hext. destruct (body2 s); [|done]. by rewrite IH.
Qed.

Lemma body_aux (self : BeamSampler F) (next1 : oracle F C H1) (next2 : oracle F C H2)
    B mask has_cache (s : loop_vars F C) :
  (∀ p c i, (next1 p c i).1.1 = (next2 p c i).1.1 ∧ (next1 p c i).2 = (next2 p c i).2) →
  body self next1 B mask has_cache s = body self next2 B mask has_cache s.
Proof.
  intros Hnext. unfold body.
  destruct (Hnext (lv_prompt s) (lv_cache s) (lv_index s)) as [Hl Hc].
  destruct (next1 _ _ _) as [[l1 h1] c1], (next2 _ _ _) as [[l2 h2] c2].
  simpl in *. by subst.
Qed.

(** C9: two calls that differ in the [hidden_states] argument and in the
    auxiliary output of the oracle only (same logits, same cache) return
    the same sequences and scores. *)
Theorem call_ignores_hidden_states (self : BeamSampler F)
    (next1 : oracle F C H1) (next2 : oracle F C H2)
    prompt cache index mask end_token_id hidden_states1 hidden_states2 :
  (∀ p c i, (next1 p c i).1.1 = (next2 p c i).1.1 ∧ (next1 p c i).2 = (next2 p c i).2) →
  call self next1 prompt cache index mask end_token_id hidden_states1 =
  call self next2 prompt cache index mask end_token_id hidden_states2.
Proof.
  intros Hnext. unfold call, call_loop.
  destruct (create_beams self prompt) as [p|]; [simpl|done].
  destruct (create_beams self _) as [m|]; [simpl|done].
  destruct (mapM _ _) as [c|]; [simpl|done].
  destruct (initial_log_probs _ _) as [lp|]; [simpl|done].
  rewrite (run_loop_ext _ _ (body self next2 (length prompt) m (bool_decide (is_Some cache)))).
  - done.
  - intros s. by apply body_aux.
Qed.
End auxiliary.

Lemma call_ignores_hidden_states_witness :
  let next1 : oracle Z () nat := λ p c i, (map (λ _, [3; 1; 2]%Z) p, i, c) in
  let next2 : oracle Z () bool := λ p c i, (map (λ _, [3; 1; 2]%Z) p, true, c) in
  (∀ p c i, (next1 p c i).1.1 = (next2 p c i).1.1 ∧ (next1 p c i).2 = (next2 p c i).2) ∧
  call (init IntBackend.int_sampler 2 true) next1 [[5; 0; 0]]%Z None 1 None None (Some 4) =
  call (init IntBackend.int_sampler 2 true) next2 [[5; 0; 0]]%Z None 1 None None None.
Proof.
  intros next1 next2.
  assert (∀ p c i, (next1 p c i).1.1 = (next2 p c i).1.1 ∧ (next1 p c i).2 = (next2 p c i).2)
    as Hsame by (intros p c i; split; reflexivity).
  split; [exact Hsame|].
  exact (call_ignores_hidden_states (init IntBackend.int_sampler 2 true) next1 next2
           [[5; 0; 0]]%Z None 1 None None (Some 4) None Hsame).
Defined.

(** ** Kept positions *)

Section gather.
Context {A : Type}.

Lemma take_along_axis_lookup (X : list (list A)) (I : list (list nat)) Y b yb :
  take_along_axis X I = Some Y → Y !! b = Some yb →
  ∃ xb ib, X !! b = Some xb ∧ I !! b = Some ib ∧ length yb = length ib ∧
    ∀ j y, yb !! j = Some y → ∃ i, ib !! j = Some i ∧ xb !! i = Some y.
Proof.
  unfold take_along_axis. case_decide; [|done]. intros HY%mapM_Some Hb.
  destruct (Forall2_lookup_r _ _ _ _ _ HY Hb) as ([xb ib] & Hz & Hrow).
  apply lookup_zip_Some in Hz as [Hxb Hib]. simpl in *.
  apply mapM_Some in Hrow. exists xb, ib. split_and!; [done..| |].
  - symmetry. by eapply Forall2_length.
  - intros j y Hy. destruct (Forall2_lookup_r _ _ _ _ _ Hrow Hy) as (i & ? & ?). eauto.
Qed.

Lemma column_lookup (x : list (list A)) index col r v :
  column index x = Some col → col !! r = Some v →
  ∃ row, x !! r = Some row ∧ row !! index = Some v.
Proof.
  unfold column. intros Hc%mapM_Some Hr.
  destruct (Forall2_lookup_r _ _ _ _ _ Hc Hr) as (row & ? & ?). eauto.
Qed.

Lemma where_lookup (c : list bool) (x y w : list A) r v :
  where_ c x y = Some w → w !! r = Some v →
  ∃ (cv : bool) xv yv, c !! r = Some cv ∧ x !! r = Some xv ∧ y !! r = Some yv ∧
    v = if cv then xv else yv.
Proof.
  unfold where_. case_decide; [|done]. intros ? Hr. simplify_eq.
  apply lookup_zip_with_Some in Hr as (cx & yv & -> & Hz & Hy). destruct cx as [cv xv].
  apply lookup_zip_Some in Hz as [??]. simpl in *. by exists cv, xv, yv.
Qed.
End gather.

Section preservation.
Context {F : Type} `{!Ops F} {C H : Type}.
Variable self : BeamSampler F.
Variable next : oracle F C H.
Variable prompt0 : list (list Z).
Variable mask0 : list (list bool).
Variable start : nat.

Local Notation "'nb'" := (beams self).
Local Notation "'agree'" := (beams_agree nb prompt0 mask0 start).

Lemma beams_agree_initial : agree (prompt0 ≫= replicate nb).
Proof.
  intros b j row Hj Hrow. rewrite lookup_bind_replicate in Hrow by done.
  exists row. split; [done|]. done.
Qed.

Lemma top_k_rows_shape k (x : list (list F)) selected :
  top_k_shape → top_k_rows k x = Some selected →
  Forall (λ ib, length ib = k) (map snd selected).
Proof.
  intros Hshape Hsel%mapM_Some. apply Forall_forall. intros ib Hib.
  apply list_elem_of_fmap in Hib as (sel & -> & Hsel').
  apply list_elem_of_lookup in Hsel' as [r Hr].
  destruct (Forall2_lookup_r _ _ _ _ _ Hsel Hr) as (row & _ & Hrow).
  case_decide; simplify_eq. by apply Hshape.
Qed.

Lemma beams_agree_gather indices flat flat' :
  Forall (λ ib : list nat, length ib = nb) indices →
  gather_beams self (length prompt0) indices flat = Some flat' →
  agree flat → agree flat'.
Proof.
  intros Hidx Hg Hflat. unfold gather_beams in Hg.
  apply bind_Some in Hg as (X & HX & Hg).
  apply bind_Some in Hg as (Y & HY & Hg).
  unfold unflatten_beams, reshape_rows in HX. case_decide; simplify_eq.
  unfold flatten_beams in Hg. case_decide; simplify_eq.
  assert (Forall (λ yb, length yb = nb) Y) as HYuni.
  { apply Forall_forall. intros yb Hyb. apply list_elem_of_lookup in Hyb as [b Hb].
    destruct (take_along_axis_lookup _ _ _ _ _ HY Hb) as (xb & ib & _ & Hib & Hlen & _).
    rewrite Hlen. rewrite Forall_forall in Hidx. apply Hidx.
    apply list_elem_of_lookup. eauto. }
  intros b j row Hj Hrow.
  destruct (lookup_concat_uniform _ _ _ _ HYuni Hrow) as (b' & j' & yb & Heq & Hj' & Hyb & Hy).
  destruct (flat_position_unique _ _ _ _ _ Hj Hj' Heq) as [<- <-].
  destruct (take_along_axis_lookup _ _ _ _ _ HY Hyb) as (xb & ib & Hxb & _ & _ & Hsel).
  destruct (Hsel _ _ Hy) as (i & _ & Hi).
  destruct (lookup_chunks _ _ _ _ _ _ _ Hxb Hi) as [Hlt Hfl].
  by eapply Hflat.
Qed.

Lemma beams_agree_write index flat mask_col prompt_col tokens written :
  start ≤ index →
  column index (mask0 ≫= replicate nb) = Some mask_col →
  column index flat = Some prompt_col →
  where_ mask_col prompt_col tokens = Some written →
  agree flat → agree (slice_update index flat written).
Proof.
  intros Hstart Hmc Hpc Hw Hflat b j row' Hj Hrow'.
  unfold slice_update in Hrow'.
  apply lookup_zip_with_Some in Hrow' as (row & t & -> & Hrow & Ht).
  destruct (Hflat _ _ _ Hj Hrow) as (orow & Horow & Hkept).
  exists orow. split; [done|]. intros p Hp.
  destruct (decide (p = index)) as [->|Hne]; [|by rewrite list_lookup_insert_ne; auto].
  destruct Hp as [Hlt|(mrow & Hmrow & Hfix)]; [lia|].
  destruct (where_lookup _ _ _ _ _ _ Hw Ht) as (cv & pv & tv & Hcv & Hpv & _ & ->).
  destruct (column_lookup _ _ _ _ _ Hmc Hcv) as (mrow' & Hmrow' & Hcv').
  rewrite lookup_bind_replicate in Hmrow' by done. simplify_eq.
  destruct (column_lookup _ _ _ _ _ Hpc Hpv) as (row1 & Hrow1 & Hpv'). simplify_eq.
  rewrite list_lookup_insert_eq by (by eapply lookup_lt_Some).
  rewrite <- Hpv'. by apply Hkept; right; eauto.
Qed.

Lemma beams_agree_body end_has_cache (s s' : loop_vars F C) :
  top_k_shape →
  body self next (length prompt0) (mask0 ≫= replicate nb) end_has_cache s = Some s' →
  start ≤ lv_index s ∧ agree (lv_prompt s) →
  start ≤ lv_index s' ∧ agree (lv_prompt s').
Proof.
  intros Hshape Hb [Hidx Hflat].
  apply body_Some in Hb as (cand & sel & toks & p1 & mc & pc & w & Hb). cbv zeta in Hb.
  destruct Hb as (Hsel & _ & Hg & Hmc & Hpc & Hw & -> & ->).
  split; [lia|].
  eapply beams_agree_write; [done..|].
  eapply beams_agree_gather; [|done..].
  apply (top_k_rows_shape _ _ _ Hshape) in Hsel.
  apply Forall_fmap. eapply Forall_impl; [exact Hsel|].
  intros ib. simpl. by rewrite length_map.
Qed.
End preservation.

Section kept_positions.
Context {F : Type} `{!Ops F} {C H : Type}.

Lemma select_agrees (self : BeamSampler F) prompt0 mask0 start (s : loop_vars F C) out :
  select self (length prompt0) s = Some out →
  beams_agree (beams self) prompt0 mask0 start (lv_prompt s) →
  ∀ b row, rows_of out b row → agrees prompt0 mask0 start b row.
Proof.
  unfold select. intros Hsel Hflat.
  apply bind_Some in Hsel as (X & HX & Hsel).
  apply bind_Some in Hsel as (L & _ & Hsel).
  unfold unflatten_beams, reshape_rows in HX. case_decide; simplify_eq.
  assert (∀ I Y b yb j row, take_along_axis (chunks (length prompt0) (beams self) (lv_prompt s)) I
            = Some Y → Y !! b = Some yb → yb !! j = Some row →
            agrees prompt0 mask0 start b row) as Htake.
  { intros I Y b yb j row HY Hyb Hrow.
    destruct (take_along_axis_lookup _ _ _ _ _ HY Hyb) as (xb & ib & Hxb & _ & _ & Hpick).
    destruct (Hpick _ _ Hrow) as (i & _ & Hi).
    destruct (lookup_chunks _ _ _ _ _ _ _ Hxb Hi) as [Hlt Hfl]. by eapply Hflat. }
  destruct (return_all_beams self).
  - apply bind_Some in Hsel as (SL & _ & Hsel).
    apply bind_Some in Hsel as (SP & HSP & Hsel). simplify_eq.
    intros b row (rows & j & Hrows & Hrow). by eapply Htake.
  - apply bind_Some in Hsel as (Y & HY & Hsel). simplify_eq.
    intros b row Hrow. simpl in Hrow.
    assert (Forall (λ yb, length yb = 1) Y) as HYuni.
    { apply Forall_forall. intros yb Hyb. apply list_elem_of_lookup in Hyb as [b' Hb'].
      destruct (take_along_axis_lookup _ _ _ _ _ HY Hb') as (xb & ib & _ & Hib & Hlen & _).
      rewrite Hlen. apply list_lookup_fmap_Some in Hib as (lrow & -> & _). done. }
    destruct (lookup_concat_uniform _ _ _ _ HYuni Hrow) as (b' & j & yb & Heq & Hj & Hyb & Hy).
    assert (b' = b) as -> by lia. by eapply Htake.
Qed.

(** Every returned row agrees with the prompt of its batch element on the
    positions before the start and on the positions the mask fixes. *)
Lemma call_agrees (self : BeamSampler F) (next : oracle F C H) prompt cache index mask
    end_token_id hidden_states out :
  top_k_shape →
  call self next prompt cache index mask end_token_id hidden_states = Some out →
  ∀ b row, rows_of out b row →
    agrees prompt (default (zeros_like prompt) mask) index b row.
Proof.
  intros Hshape Hcall. unfold call in Hcall.
  apply bind_Some in Hcall as ([steps s] & Hloop & Hsel). simpl in Hsel.
  apply call_loop_Some in Hloop as (_ & cache0 & log_probs & Hrun).
  eapply select_agrees; [done|].
  eapply (run_loop_invariant _ _
            (λ s, index ≤ lv_index s ∧
                  beams_agree (beams self) prompt (default (zeros_like prompt) mask)
                              index (lv_prompt s))) in Hrun.
  - by destruct Hrun.
  - intros s1 s2 Hs1 Hb. by eapply beams_agree_body.
  - split; [done|]. apply beams_agree_initial.
Qed.

(** C2: a position the input mask marks true holds, in every returned
    sequence, the prompt token of that position, whatever the oracle
    returns. *)
Theorem mask_preserved (self : BeamSampler F) (next : oracle F C H) prompt cache index
    mask end_token_id hidden_states out b p mrow row :
  top_k_shape →
  call self next prompt cache index (Some mask) end_token_id hidden_states = Some out →
  mask !! b = Some mrow → mrow !! p = Some true →
  rows_of out b row →
  ∃ orow, prompt !! b = Some orow ∧ row !! p = orow !! p.
Proof.
  intros Hshape Hcall Hmrow Hp Hrow.
  destruct (call_agrees _ _ _ _ _ _ _ _ _ Hshape Hcall b row Hrow) as (orow & Horow & Hkept).
  exists orow. split; [done|]. apply Hkept. right. simpl. eauto.
Qed.

(** C10: a position before the start position holds, in every returned
    sequence and in every beam, the prompt token of that position, fixed
    by the mask or not. *)
Theorem prefix_preserved (self : BeamSampler F) (next : oracle F C H) prompt cache index
    mask end_token_id hidden_states out b p row :
  top_k_shape →
  call self next prompt cache index mask end_token_id hidden_states = Some out →
  p < index →
  rows_of out b row →
  ∃ orow, prompt !! b = Some orow ∧ row !! p = orow !! p.
Proof.
  intros Hshape Hcall Hp Hrow.
  destruct (call_agrees _ _ _ _ _ _ _ _ _ Hshape Hcall b row Hrow) as (orow & Horow & Hkept).
  exists orow. split; [done|]. apply Hkept. by left.
Qed.
End kept_positions.

(** ** The integer backend meets the contracts of the tensor library *)

Section int_backend.
Import IntBackend.


Global Instance by_score_desc_total l : Total (by_score_desc l).
Proof. intros i j. unfold by_score_desc. lia. Qed.
Global Instance by_score_desc_trans l : Transitive (by_score_desc l).
Proof. intros i j k. unfold by_score_desc. lia. Qed.
Global Instance by_score_asc_total l : Total (by_score_asc l).
Proof. intros i j. unfold by_score_asc. lia. Qed.
Global Instance by_score_asc_trans l : Transitive (by_score_asc l).
Proof. intros i j k. unfold by_score_asc. lia. Qed.

Lemma int_top_k_shape : top_k_shape (F := Z).
Proof.
  intros k l Hk. simpl. unfold int_top_k. simpl.
  rewrite length_take, (Permutation_length (merge_sort_Permutation _ _)), length_seq. lia.
Qed.


End int_backend.

Lemma mask_preserved_witness :
  let mask := [[true; false; true; false]] in
  top_k_shape (F := Z) ∧
  call (init IntBackend.int_sampler 2 true) (IntBackend.ramp 3) [[5; 0; 9; 0]]%Z None 1
       (Some mask) None (None : option ())
    = Some (AllBeams [[[5; 2; 9; 2]; [5; 1; 9; 2]]]%Z [[-2994; -2995]]%Z) ∧
  mask !! 0 = Some [true; false; true; false] ∧
  [true; false; true; false] !! 2 = Some true ∧
  rows_of (AllBeams (F := Z) [[[5; 2; 9; 2]; [5; 1; 9; 2]]]%Z [[-2994; -2995]]%Z) 0
          [5; 1; 9; 2]%Z ∧
  ∃ orow, [[5; 0; 9; 0]]%Z !! 0 = Some orow ∧ [5; 1; 9; 2]%Z !! 2 = orow !! 2.
Proof.
  intros mask.
  assert (call (init IntBackend.int_sampler 2 true) (IntBackend.ramp 3) [[5; 0; 9; 0]]%Z
            None 1 (Some mask) None (None : option ())
          = Some (AllBeams [[[5; 2; 9; 2]; [5; 1; 9; 2]]]%Z [[-2994; -2995]]%Z)) as Hcall
    by (vm_compute; reflexivity).
  assert (rows_of (AllBeams (F := Z) [[[5; 2; 9; 2]; [5; 1; 9; 2]]]%Z [[-2994; -2995]]%Z) 0
            [5; 1; 9; 2]%Z) as Hrow
    by (exists [[5; 2; 9; 2]; [5; 1; 9; 2]]%Z, 1; split; reflexivity).
  split; [exact int_top_k_shape|]. split; [exact Hcall|].
  split; [reflexivity|]. split; [reflexivity|]. split; [exact Hrow|].
  exact (mask_preserved _ _ _ _ _ mask _ _ _ 0 2 [true; false; true; false] _
           int_top_k_shape Hcall eq_refl eq_refl Hrow).
Defined.

Lemma prefix_preserved_witness :
  top_k_shape (F := Z) ∧
  call (init IntBackend.int_sampler 2 true) (IntBackend.ramp 3) [[5; 6; 0; 0]]%Z None 2
       None None (None : option ())
    = Some (AllBeams [[[5; 6; 2; 2]; [5; 6; 1; 2]]]%Z [[-1996; -1997]]%Z) ∧
  1 < 2 ∧
  rows_of (AllBeams (F := Z) [[[5; 6; 2; 2]; [5; 6; 1; 2]]]%Z [[-1996; -1997]]%Z) 0
          [5; 6; 1; 2]%Z ∧
  ∃ orow, [[5; 6; 0; 0]]%Z !! 0 = Some orow ∧ [5; 6; 1; 2]%Z !! 1 = orow !! 1.
Proof.
  assert (call (init IntBackend.int_sampler 2 true) (IntBackend.ramp 3) [[5; 6; 0; 0]]%Z
            None 2 None None (None : option ())
          = Some (AllBeams [[[5; 6; 2; 2]; [5; 6; 1; 2]]]%Z [[-1996; -1997]]%Z)) as Hcall
    by (vm_compute; reflexivity).
  assert (rows_of (AllBeams (F := Z) [[[5; 6; 2; 2]; [5; 6; 1; 2]]]%Z [[-1996; -1997]]%Z) 0
            [5; 6; 1; 2]%Z) as Hrow
    by (exists [[5; 6; 2; 2]; [5; 6; 1; 2]]%Z, 1; split; reflexivity).
  assert (1 < 2) as Hlt by lia.
  split; [exact int_top_k_shape|]. split; [exact Hcall|].
  split; [exact Hlt|]. split; [exact Hrow|].
  exact (prefix_preserved _ _ _ _ _ _ _ _ _ 0 1 _ int_top_k_shape Hcall Hlt Hrow).
Defined.

(** ** All beams, sorted *)

Lemma take_along_axis_row {A} (X : list (list A)) (I : list (list nat)) Y b xb ib :
  take_along_axis X I = Some Y → X !! b = Some xb → I !! b = Some ib →
  ∃ yb, Y !! b = Some yb ∧ Forall2 (λ i y, xb !! i = Some y) ib yb.
Proof.
  unfold take_along_axis. case_decide; [|done]. intros HY%mapM_Some Hxb Hib.
  assert (zip X I !! b = Some (xb, ib)) as Hz by by apply lookup_zip_Some.
  destruct (Forall2_lookup_l _ _ _ _ _ HY Hz) as (yb & Hyb & Hrow).
  apply mapM_Some in Hrow. eauto.
Qed.

Lemma take_along_axis_length {A} (X : list (list A)) (I : list (list nat)) Y :
  take_along_axis X I = Some Y → length Y = length X.
Proof.
  unfold take_along_axis. case_decide; [|done]. intros HY%mapM_Some.
  apply Forall2_length in HY. rewrite length_zip_with in HY. lia.
Qed.

Lemma lookup_chunks_Some {A} n m (l : list A) b :
  b < n → ∃ xb, chunks n m l !! b = Some xb.
Proof. intros Hb. apply lookup_lt_is_Some. by rewrite length_chunks. Qed.

Section sorted_beams.
Context {F : Type} `{!Ops F} {C H : Type}.

End sorted_beams.



(** ** One beam: greedy decoding *)

Lemma chunks_concat {A} (X : list (list A)) m :
  Forall (λ xb, length xb = m) X → chunks (length X) m (concat X) = X.
Proof.
  induction 1 as [|xb X Hxb _ IH]; simpl; [done|].
  rewrite take_app_length' by done. rewrite drop_app_length' by done. by rewrite IH.
Qed.


Lemma column_lookup_row {A} (x : list (list A)) index col r row :
  column index x = Some col → x !! r = Some row →
  ∃ v, col !! r = Some v ∧ row !! index = Some v.
Proof.
  unfold column. intros Hc%mapM_Some Hr.
  destruct (Forall2_lookup_l _ _ _ _ _ Hc Hr) as (v & ? & ?). eauto.
Qed.

Section greedy.
Context {F : Type} `{!Ops F} {C H : Type}.

(** After a step the running log-likelihoods have one entry per beam, as
    they have initially. *)
Lemma body_log_probs_length (self : BeamSampler F) (next : oracle F C H) B mask has_cache
    (s s' : loop_vars F C) :
  body self next B mask has_cache s = Some s' →
  length (lv_log_probs s') = B * beams self.
Proof.
  unfold body. destruct (next _ _ _) as [[logits h] cache]. simpl. intros Hb.
  apply bind_Some in Hb as (m & _ & Hb).
  apply bind_Some in Hb as (candidates & _ & Hb).
  apply bind_Some in Hb as (selected & _ & Hb).
  apply bind_Some in Hb as (next_token & _ & Hb).
  apply bind_Some in Hb as (log_probs & Hlp & Hb).
  apply bind_Some in Hb as (prompt1 & _ & Hb).
  apply bind_Some in Hb as (cache1 & _ & Hb).
  apply bind_Some in Hb as (mask_col & _ & Hb).
  apply bind_Some in Hb as (prompt_col & _ & Hb).
  apply bind_Some in Hb as (written & _ & Hb). simplify_eq/=.
  unfold flatten_beams in Hlp. by case_decide; simplify_eq.
Qed.

End greedy.


Lemma int_score_order_reflected : score_order_reflected (F := Z).
Proof. intros x y c Hle. simpl in *. apply Z.leb_le in Hle. apply Z.leb_le. lia. Qed.



(** ** The beam axis: replicate, fold, unfold, gather *)

Lemma concat_chunks {A} n m (l : list A) :
  length l = n * m → concat (chunks n m l) = l.
Proof.
  revert l. induction n as [|n IH]; intros l Hl; simpl.
  - symmetry. apply length_zero_iff_nil. done.
  - rewrite IH by (rewrite length_drop; lia). apply take_drop.
Qed.

Lemma bind_replicate_concat {A} n (x : list A) :
  x ≫= replicate n = concat (map (replicate n) x).
Proof.
  induction x as [|a x IH]; [done|].
  change ((a :: x) ≫= replicate n) with (replicate n a ++ (x ≫= replicate n)).
  simpl. by rewrite IH.
Qed.

Lemma take_along_axis_indices {A} (X : list (list A)) (I : list (list nat)) Y :
  take_along_axis X I = Some Y → length X = length I.
Proof. unfold take_along_axis. by case_decide. Qed.

Section beam_axis.
Context {F : Type}.

Lemma unflatten_bind_replicate {A} (self : BeamSampler F) (x : list A) :
  unflatten_beams self (length x) (x ≫= replicate (beams self))
    = Some (map (replicate (beams self)) x).
Proof.
  unfold unflatten_beams, reshape_rows.
  rewrite decide_True by apply length_bind_replicate.
  rewrite bind_replicate_concat.
  rewrite <- (length_map (replicate (beams self)) x) at 1.
  rewrite chunks_concat; [done|].
  apply Forall_fmap, Forall_forall. intros a _. simpl. apply length_replicate.
Qed.

(** Unfolding the beam axis and folding it again gives the tensor back. *)
Theorem unflatten_then_flatten {A} (self : BeamSampler F) (B : nat) (x : list A) X :
  unflatten_beams self B x = Some X → flatten_beams self B X = Some x.
Proof.
  unfold unflatten_beams, reshape_rows, flatten_beams.
  case_decide as Hlen; [|done]. intros ?; simplify_eq.
  rewrite (concat_chunks _ _ _ Hlen). by rewrite decide_True.
Qed.

(** Folding a [(batch_size, num_beams)] tensor and unfolding the result
    gives the tensor back. *)
Theorem flatten_then_unflatten {A} (self : BeamSampler F) (B : nat) (X : list (list A)) x :
  length X = B → Forall (λ xb, length xb = beams self) X →
  flatten_beams self B X = Some x → unflatten_beams self B x = Some X.
Proof.
  intros HB HX. unfold unflatten_beams, reshape_rows, flatten_beams.
  case_decide as Hlen; [|done]. intros ?; simplify_eq.
  rewrite decide_True by done. by rewrite chunks_concat.
Qed.

(** [create_beams] puts the copies of one batch element next to each
    other: unfolded, the result holds [num_beams] copies of every row. *)
Theorem create_beams_copies {A} (self : BeamSampler F) (x y : list A) :
  create_beams self x = Some y →
  length y = length x * beams self ∧
  unflatten_beams self (length x) y = Some (map (replicate (beams self)) x).
Proof.
  unfold create_beams. case_decide; [done|]. intros ?; simplify_eq.
  split; [apply length_bind_replicate|apply unflatten_bind_replicate].
Qed.

(** [gather_beams] reorders beams inside their batch element and nowhere
    else: beam [j] of batch element [b] of the result is beam
    [beam_indices[b][j]] of batch element [b] of the argument, and the
    number of rows stays [batch_size * num_beams]. *)
Theorem gather_beams_lookup {A} (self : BeamSampler F) (B : nat)
    (beam_indices : list (list nat)) (x y : list A) :
  Forall (λ ib, length ib = beams self) beam_indices →
  gather_beams self B beam_indices x = Some y →
  length x = B * beams self ∧ length y = B * beams self ∧
  ∀ b j ib i, beam_indices !! b = Some ib → ib !! j = Some i →
    i < beams self ∧ is_Some (x !! (b * beams self + i)) ∧
    y !! (b * beams self + j) = x !! (b * beams self + i).
Proof.
  intros Hidx Hg. unfold gather_beams in Hg.
  apply bind_Some in Hg as (X & HX & Hg).
  apply bind_Some in Hg as (Y & HY & Hg).
  unfold unflatten_beams, reshape_rows in HX. case_decide as Hlen; simplify_eq.
  unfold flatten_beams in Hg. case_decide as Hlen'; simplify_eq.
  split; [done|]. split; [done|].
  assert (Forall (λ yb, length yb = beams self) Y) as HYuni.
  { apply Forall_forall. intros yb Hyb. apply list_elem_of_lookup in Hyb as [b Hb].
    destruct (take_along_axis_lookup _ _ _ _ _ HY Hb) as (xb & ib & _ & Hib & Hl & _).
    rewrite Hl. rewrite Forall_forall in Hidx. apply Hidx, list_elem_of_lookup. eauto. }
  intros b j ib i Hib Hj.
  assert (is_Some (chunks B (beams self) x !! b)) as [xb Hxb].
  { apply lookup_lt_is_Some. rewrite (take_along_axis_indices _ _ _ HY).
    by eapply lookup_lt_Some. }
  destruct (take_along_axis_row _ _ _ _ _ _ HY Hxb Hib) as (yb & Hyb & HF).
  destruct (Forall2_lookup_l _ _ _ _ _ HF Hj) as (v & Hv & Hxi).
  destruct (lookup_chunks _ _ _ _ _ _ _ Hxb Hxi) as [Hlt Hflat].
  rewrite Hflat. split; [done|]. split; [eauto|].
  by apply (lookup_concat_uniform_2 _ _ _ _ yb).
Qed.
End beam_axis.

(** ** How the loop ends *)

Section loop_exit.
Context {V : Type}.
Variable cond : V → option bool.
Variable body : V → option V.

Lemma run_loop_exit n s steps s' :
  run_loop cond body n s = Some (steps, s') →
  steps = n ∨ cond s' = Some false.
Proof.
  revert s steps. induction n as [|n IH]; intros s steps Hr; simpl in *.
  - simplify_eq. by left.
  - destruct (cond s) as [[]|] eqn:Hc; simplify_eq; [|by right].
    destruct (body s) as [s1|]; simplify_eq.
    destruct (run_loop cond body n s1) as [[k r]|] eqn:Hk; simplify_eq.
    destruct (IH _ _ Hk) as [->|?]; [by left|by right].
Qed.
End loop_exit.

Section call_exit.
Context {F : Type} `{!Ops F} {C H : Type}.

(** Without an end token the loop takes exactly [max_length - index]
    steps whenever the call gets through it: nothing stops it early. *)
Theorem no_end_token_runs_to_the_end (self : BeamSampler F) (next : oracle F C H)
    prompt cache index mask steps (s : loop_vars F C) :
  call_loop self next prompt cache index mask None = Some (steps, s) →
  steps = shape1 prompt - index ∧ lv_index s = index + (shape1 prompt - index).
Proof.
  intros Hloop.
  pose proof Hloop as (_ & cache0 & log_probs & Hrun)%call_loop_Some.
  pose proof (run_loop_exit _ _ _ _ _ _ Hrun) as [->|Hstop]; [|done].
  split; [done|].
  eapply (run_loop_counter _ _ lv_index) in Hrun; [done|].
  intros ??. apply body_index.
Qed.

(** With an end token the loop is left in one of two ways: the budget of
    [max_length - index] steps is used up, or every beam of the final
    state holds the end token at a position the mask does not fix. *)
Theorem end_token_exit (self : BeamSampler F) (next : oracle F C H)
    prompt cache index mask e steps (s : loop_vars F C) :
  call_loop self next prompt cache index mask (Some e) = Some (steps, s) →
  steps = shape1 prompt - index ∨
  ∀ r row mrow,
    lv_prompt s !! r = Some row →
    (default (zeros_like prompt) mask ≫= replicate (beams self)) !! r = Some mrow →
    ∃ p, row !! p = Some e ∧ mrow !! p = Some false.
Proof.
  intros (_ & cache0 & log_probs & Hrun)%call_loop_Some.
  destruct (run_loop_exit _ _ _ _ _ _ Hrun) as [->|Hstop]; [by left|right].
  unfold cond in Hstop. destruct (same_shape _ _); [|done].
  injection Hstop as Hall. apply negb_false_iff in Hall. rewrite forallb_forall in Hall.
  intros r row mrow Hrow Hmrow. apply row_done_true.
  apply (Hall (row_done e row mrow)), list_elem_of_In, list_elem_of_lookup.
  exists r. apply lookup_zip_with_Some. eauto.
Qed.
End call_exit.

(** ** What a step leaves alone *)

Section beam_properties.
Context {F : Type} `{!Ops F} {C H : Type}.
Variable self : BeamSampler F.

Lemma beams_satisfy_gather (P : nat → list Z → Prop) B indices flat flat' :
  Forall (λ ib : list nat, length ib = beams self) indices →
  gather_beams self B indices flat = Some flat' →
  beams_satisfy (beams self) P flat → beams_satisfy (beams self) P flat'.
Proof.
  intros Hidx Hg Hflat. unfold gather_beams in Hg.
  apply bind_Some in Hg as (X & HX & Hg).
  apply bind_Some in Hg as (Y & HY & Hg).
  unfold unflatten_beams, reshape_rows in HX. case_decide; simplify_eq.
  unfold flatten_beams in Hg. case_decide; simplify_eq.
  assert (Forall (λ yb, length yb = beams self) Y) as HYuni.
  { apply Forall_forall. intros yb Hyb. apply list_elem_of_lookup in Hyb as [b Hb].
    destruct (take_along_axis_lookup _ _ _ _ _ HY Hb) as (xb & ib & _ & Hib & Hlen & _).
    rewrite Hlen. rewrite Forall_forall in Hidx. apply Hidx, list_elem_of_lookup. eauto. }
  intros b j row Hj Hrow.
  destruct (lookup_concat_uniform _ _ _ _ HYuni Hrow) as (b' & j' & yb & Heq & Hj' & Hyb & Hy).
  destruct (flat_position_unique _ _ _ _ _ Hj Hj' Heq) as [<- <-].
  destruct (take_along_axis_lookup _ _ _ _ _ HY Hyb) as (xb & ib & Hxb & _ & _ & Hsel).
  destruct (Hsel _ _ Hy) as (i & _ & Hi).
  destruct (lookup_chunks _ _ _ _ _ _ _ Hxb Hi) as [Hlt Hfl].
  by eapply Hflat.
Qed.

Lemma beams_satisfy_write (P Q : nat → list Z → Prop) index flat written :
  (∀ b row t, P b row → Q b (<[index := t]> row)) →
  beams_satisfy (beams self) P flat →
  beams_satisfy (beams self) Q (slice_update index flat written).
Proof.
  intros HPQ Hflat b j row' Hj Hrow'. unfold slice_update in Hrow'.
  apply lookup_zip_with_Some in Hrow' as (row & t & -> & Hrow & Ht).
  apply HPQ. by eapply Hflat.
Qed.

Lemma beams_satisfy_select (P : nat → list Z → Prop) B (s : loop_vars F C) out :
  select self B s = Some out →
  beams_satisfy (beams self) P (lv_prompt s) →
  ∀ b row, rows_of out b row → P b row.
Proof.
  unfold select. intros Hsel Hflat.
  apply bind_Some in Hsel as (X & HX & Hsel).
  apply bind_Some in Hsel as (L & _ & Hsel).
  unfold unflatten_beams, reshape_rows in HX. case_decide; simplify_eq.
  assert (∀ I Y b yb j row, take_along_axis (chunks B (beams self) (lv_prompt s)) I = Some Y →
            Y !! b = Some yb → yb !! j = Some row → P b row) as Htake.
  { intros I Y b yb j row HY Hyb Hrow.
    destruct (take_along_axis_lookup _ _ _ _ _ HY Hyb) as (xb & ib & Hxb & _ & _ & Hpick).
    destruct (Hpick _ _ Hrow) as (i & _ & Hi).
    destruct (lookup_chunks _ _ _ _ _ _ _ Hxb Hi) as [Hlt Hfl]. by eapply Hflat. }
  destruct (return_all_beams self).
  - apply bind_Some in Hsel as (SL & _ & Hsel).
    apply bind_Some in Hsel as (SP & HSP & Hsel). simplify_eq.
    intros b row (rows & j & Hrows & Hrow). by eapply Htake.
  - apply bind_Some in Hsel as (Y & HY & Hsel). simplify_eq.
    intros b row Hrow. simpl in Hrow.
    assert (Forall (λ yb, length yb = 1) Y) as HYuni.
    { apply Forall_forall. intros yb Hyb. apply list_elem_of_lookup in Hyb as [b' Hb'].
      destruct (take_along_axis_lookup _ _ _ _ _ HY Hb') as (xb & ib & _ & Hib & Hlen & _).
      rewrite Hlen. apply list_lookup_fmap_Some in Hib as (lrow & -> & _). done. }
    destruct (lookup_concat_uniform _ _ _ _ HYuni Hrow) as (b' & j & yb & Heq & Hj & Hyb & Hy).
    assert (b' = b) as -> by lia. by eapply Htake.
Qed.

Lemma same_from_body (next : oracle F C H) prompt0 mask has_cache (s s' : loop_vars F C) :
  top_k_shape →
  body self next (length prompt0) mask has_cache s = Some s' →
  beams_satisfy (beams self) (same_from prompt0 (lv_index s)) (lv_prompt s) →
  beams_satisfy (beams self) (same_from prompt0 (lv_index s')) (lv_prompt s').
Proof.
  intros Hshape Hb Hflat.
  apply body_Some in Hb as (cand & sel & toks & p1 & mc & pc & w & Hb). cbv zeta in Hb.
  destruct Hb as (Hsel & _ & Hg & _ & _ & _ & -> & ->).
  eapply (beams_satisfy_write (same_from prompt0 (lv_index s))).
  - intros b row t (orow & Horow & Hlen & Htail). exists orow. split_and!; [done| |].
    + by rewrite length_insert.
    + intros p Hp. rewrite list_lookup_insert_ne by lia. apply Htail. lia.
  - eapply beams_satisfy_gather; [|done..].
    apply (top_k_rows_shape _ _ _ Hshape) in Hsel.
    apply Forall_fmap. eapply Forall_impl; [exact Hsel|].
    intros ib. simpl. by rewrite length_map.
Qed.

Lemma call_same_from (next : oracle F C H) prompt cache index mask end_token_id
    steps (s : loop_vars F C) out :
  top_k_shape →
  call_loop self next prompt cache index mask end_token_id = Some (steps, s) →
  select self (length prompt) s = Some out →
  ∀ b row, rows_of out b row → same_from prompt (index + steps) b row.
Proof.
  intros Hshape Hloop Hsel.
  pose proof Hloop as (_ & cache0 & log_probs & Hrun)%call_loop_Some.
  assert (lv_index s = index + steps) as <-.
  { eapply (run_loop_counter _ _ lv_index) in Hrun; [done|]. intros ??. apply body_index. }
  eapply beams_satisfy_select; [done|].
  eapply (run_loop_invariant _ _
            (λ s, beams_satisfy (beams self) (same_from prompt (lv_index s)) (lv_prompt s)))
    in Hrun; [done| |].
  - intros s1 s2 Hs1 Hb. by eapply same_from_body.
  - intros b j row Hj Hrow. simpl in *. rewrite lookup_bind_replicate in Hrow by done.
    exists row. done.
Qed.

(** Decoding never changes the length of a sequence: every returned row,
    of every beam, is as long as the prompt of its batch element. *)
Theorem rows_keep_length (next : oracle F C H) prompt cache index mask end_token_id
    hidden_states out b row :
  top_k_shape →
  call self next prompt cache index mask end_token_id hidden_states = Some out →
  rows_of out b row →
  ∃ orow, prompt !! b = Some orow ∧ length row = length orow.
Proof.
  intros Hshape Hcall Hrow. unfold call in Hcall.
  apply bind_Some in Hcall as ([steps s] & Hloop & Hsel). simpl in Hsel.
  destruct (call_same_from _ _ _ _ _ _ _ _ _ Hshape Hloop Hsel b row Hrow)
    as (orow & ? & ? & _).
  eauto.
Qed.

(** When the loop stops early, the positions it did not reach keep the
    tokens of the prompt: after [steps] steps from [index], every returned
    row agrees with its prompt from position [index + steps] on. *)
Theorem unreached_positions_kept (next : oracle F C H) prompt cache index mask
    end_token_id hidden_states out :
  top_k_shape →
  call self next prompt cache index mask end_token_id hidden_states = Some out →
  ∃ steps s,
    call_loop self next prompt cache index mask end_token_id = Some (steps, s) ∧
    ∀ b row p, rows_of out b row → index + steps ≤ p →
      ∃ orow, prompt !! b = Some orow ∧ row !! p = orow !! p.
Proof.
  intros Hshape Hcall. unfold call in Hcall.
  apply bind_Some in Hcall as ([steps s] & Hloop & Hsel). simpl in Hsel.
  exists steps, s. split; [done|]. intros b row p Hrow Hp.
  destruct (call_same_from _ _ _ _ _ _ _ _ _ Hshape Hloop Hsel b row Hrow)
    as (orow & ? & _ & Htail).
  eauto.
Qed.
End beam_properties.

(** ** The number of beams *)

Lemma where_length {A} (c : list bool) (x y w : list A) :
  where_ c x y = Some w → length w = length x.
Proof.
  unfold where_. case_decide as Hl; [|done]. intros ?; simplify_eq.
  rewrite !length_zip_with. lia.
Qed.

Lemma column_length {A} index (x : list (list A)) col :
  column index x = Some col → length col = length x.
Proof. unfold column. intros Hc%mapM_Some. symmetry. by eapply Forall2_length. Qed.

Section beam_count.
Context {F : Type} `{!Ops F} {C H : Type}.

Lemma body_prompt_length (self : BeamSampler F) (next : oracle F C H) B mask has_cache
    (s s' : loop_vars F C) :
  body self next B mask has_cache s = Some s' →
  length (lv_prompt s') = B * beams self.
Proof.
  intros Hb. apply body_Some in Hb as (cand & sel & toks & p1 & mc & pc & w & Hb).
  cbv zeta in Hb. destruct Hb as (_ & _ & Hg & _ & Hpc & Hw & -> & _).
  unfold slice_update. rewrite length_zip_with.
  rewrite (where_length _ _ _ _ Hw), (column_length _ _ _ Hpc).
  unfold gather_beams in Hg.
  apply bind_Some in Hg as (X & _ & Hg). apply bind_Some in Hg as (Y & _ & Hg).
  unfold flatten_beams in Hg. case_decide; simplify_eq. lia.
Qed.

Lemma call_loop_initial (self : BeamSampler F) (next : oracle F C H) prompt cache index
    mask e steps (s : loop_vars F C) :
  call_loop self next prompt cache index mask e = Some (steps, s) →
  ∃ cache0 log_probs,
    initial_log_probs self (length prompt) = Some log_probs ∧
    run_loop (cond (default (zeros_like prompt) mask ≫= replicate (beams self)) e)
             (body self next (length prompt)
                   (default (zeros_like prompt) mask ≫= replicate (beams self))
                   (bool_decide (is_Some cache)))
             (shape1 prompt - index)
             {| lv_prompt := prompt ≫= replicate (beams self); lv_cache := cache0;
                lv_index := index; lv_log_probs := log_probs |}
      = Some (steps, s).
Proof.
  unfold call_loop, create_beams. intros Hc.
  case_decide; [done|]. simpl in Hc.
  apply bind_Some in Hc as (cache0 & _ & Hc).
  apply bind_Some in Hc as (log_probs & Hlp & Hc). eauto.
Qed.

(** The number of hypotheses is constant: after the loop, however many
    steps it took, the sequence buffer and the vector of log-likelihoods
    both have [batch_size * num_beams] rows. *)
Theorem beam_count_constant (self : BeamSampler F) (next : oracle F C H) prompt cache index
    mask end_token_id steps (s : loop_vars F C) :
  call_loop self next prompt cache index mask end_token_id = Some (steps, s) →
  length (lv_prompt s) = length prompt * beams self ∧
  length (lv_log_probs s) = length prompt * beams self.
Proof.
  intros (cache0 & log_probs & Hlp & Hrun)%call_loop_initial.
  eapply (run_loop_invariant _ _
            (λ s, length (lv_prompt s) = length prompt * beams self ∧
                  length (lv_log_probs s) = length prompt * beams self)) in Hrun; [done| |].
  - intros s1 s2 _ Hb. split.
    + by eapply body_prompt_length.
    + by eapply body_log_probs_length.
  - simpl. split; [apply length_bind_replicate|].
    unfold initial_log_probs, flatten_beams in Hlp. by case_decide; simplify_eq.
Qed.
End beam_count.

(** ** The best beam *)

Lemma lookup_chunks_flat {A} n m (l : list A) b xb j :
  length l = n * m → chunks n m l !! b = Some xb → j < m →
  xb !! j = l !! (b * m + j).
Proof.
  intros Hl Hxb Hj.
  assert (length xb = m) as Hlen.
  { pose proof (Forall_length_chunks _ _ _ Hl) as Hfa. rewrite Forall_forall in Hfa.
    apply Hfa, list_elem_of_lookup. eauto. }
  destruct (lookup_lt_is_Some_2 xb j) as [x Hx]; [lia|].
  destruct (lookup_chunks _ _ _ _ _ _ _ Hxb Hx) as [_ ->]. done.
Qed.

Section best_beam.
Context {F : Type} `{!Ops F} {C H : Type}.

(** Without [return_all_beams] the call returns, for every batch element,
    one beam of the final state, and no other beam of that element has a
    greater log-likelihood. *)
Theorem top_beam_is_best (self : BeamSampler F) (next : oracle F C H) prompt cache index
    mask end_token_id hidden_states out :
  argmax_greatest →
  return_all_beams self = false →
  call self next prompt cache index mask end_token_id hidden_states = Some out →
  ∃ steps s top,
    call_loop self next prompt cache index mask end_token_id = Some (steps, s) ∧
    out = TopBeam top ∧ length top = length prompt ∧
    ∀ b, b < length prompt →
      ∃ i row, i < beams self ∧ top !! b = Some row ∧
        lv_prompt s !! (b * beams self + i) = Some row ∧
        ∀ j x y, j < beams self → j ≠ i →
          lv_log_probs s !! (b * beams self + j) = Some x →
          lv_log_probs s !! (b * beams self + i) = Some y →
          f_le x y = true.
Proof.
  intros Hbest Hret Hcall. unfold call in Hcall.
  apply bind_Some in Hcall as ([steps s] & Hloop & Hsel). simpl in Hsel.
  unfold select in Hsel. rewrite Hret in Hsel.
  apply bind_Some in Hsel as (X & HX & Hsel).
  apply bind_Some in Hsel as (L & HL & Hsel).
  apply bind_Some in Hsel as (Y & HY & Hsel). simplify_eq.
  unfold unflatten_beams, reshape_rows in HX, HL.
  case_decide as HlenL; simplify_eq. case_decide as HlenP; simplify_eq.
  assert (Forall (λ yb, length yb = 1) Y) as HYuni.
  { apply Forall_forall. intros yb Hyb. apply list_elem_of_lookup in Hyb as [b' Hb'].
    destruct (take_along_axis_lookup _ _ _ _ _ HY Hb') as (xb & ib & _ & Hib & Hlen & _).
    rewrite Hlen. apply list_lookup_fmap_Some in Hib as (lrow & -> & _). done. }
  exists steps, s, (concat Y). split_and!; [done..| |].
  { rewrite (length_concat_uniform _ _ HYuni), (take_along_axis_length _ _ _ HY),
      length_chunks. lia. }
  intros b Hb.
  destruct (lookup_chunks_Some (length prompt) (beams self) (lv_prompt s) b Hb) as [xb Hxb].
  destruct (lookup_chunks_Some (length prompt) (beams self) (lv_log_probs s) b Hb) as [lb Hlb].
  assert (map (λ row : list F, [argmax row])
              (chunks (length prompt) (beams self) (lv_log_probs s)) !! b
          = Some [argmax lb]) as Hidx by by rewrite list_lookup_fmap, Hlb.
  destruct (take_along_axis_row _ _ _ _ _ _ HY Hxb Hidx) as (yb & Hyb & HF).
  apply Forall2_cons_inv_l in HF as (row & yb' & Hrow & HF' & ->).
  apply Forall2_nil_inv_l in HF' as ->.
  destruct (lookup_chunks _ _ _ _ _ _ _ Hxb Hrow) as [Hlt Hflat].
  exists (argmax lb), row. split_and!; [done| |done|].
  - rewrite <- (lookup_concat_uniform_2 Y 1 b 0 [row] row HYuni Hyb eq_refl).
    f_equal. lia.
  - intros j x y Hj Hne Hx Hy.
    rewrite <- (lookup_chunks_flat _ _ _ _ _ _ HlenL Hlb Hj) in Hx.
    rewrite <- (lookup_chunks_flat _ _ _ _ _ _ HlenL Hlb Hlt) in Hy.
    by eapply Hbest.
Qed.
End best_beam.

(** ** The tokens a step writes *)

Lemma written_where_free (index : nat) (mask : list (list bool)) (prompt1 : list (list Z))
    mask_col prompt_col (tokens written : list Z) r mrow :
  column index mask = Some mask_col →
  column index prompt1 = Some prompt_col →
  where_ mask_col prompt_col tokens = Some written →
  mask !! r = Some mrow → mrow !! index = Some false →
  ∃ tk, tokens !! r = Some tk ∧
    slice_update index prompt1 written !! r ≫= (λ row, row !! index) = Some tk.
Proof.
  intros Hmc Hpc Hw Hmrow Hfree.
  destruct (column_lookup_row _ _ _ _ _ Hmc Hmrow) as (c & Hc & Hc'). simplify_eq.
  unfold where_ in Hw. case_decide as Hlens; simplify_eq. destruct Hlens as [Hl1 Hl2].
  assert (is_Some (prompt_col !! r)) as [pv Hpv].
  { apply lookup_lt_is_Some. rewrite <- Hl1. by eapply lookup_lt_Some. }
  assert (is_Some (tokens !! r)) as [tk Htk].
  { apply lookup_lt_is_Some. rewrite <- Hl2. by eapply lookup_lt_Some. }
  destruct (column_lookup _ _ _ _ _ Hpc Hpv) as (row1 & Hrow1 & Hrow1idx).
  exists tk. split; [done|].
  unfold slice_update. rewrite lookup_zip_with, Hrow1. simpl.
  rewrite lookup_zip_with, Htk. simpl.
  assert (zip mask_col prompt_col !! r = Some (false, pv)) as ->
    by by apply lookup_zip_Some.
  simpl. apply list_lookup_insert_eq. by eapply lookup_lt_Some.
Qed.

Section written_tokens.
Context {F : Type} `{!Ops F} {C H : Type}.

(** A generated token comes from the vocabulary: where the mask does not
    fix the current position, the token a step writes is the cast, to the
    dtype of the prompt, of an index below the vocabulary size of the
    logits of that step.  If that dtype holds every such index as it is,
    the token is at least 0 and below the vocabulary size. *)
Theorem generated_token_in_vocabulary (self : BeamSampler F) (next : oracle F C H) B mask
    has_cache (s s' : loop_vars F C) r mrow :
  0 < shape1 (next (lv_prompt s) (lv_cache s) (lv_index s)).1.1 →
  body self next B mask has_cache s = Some s' →
  mask !! r = Some mrow → mrow !! lv_index s = Some false →
  ∃ i : nat,
    i < shape1 (next (lv_prompt s) (lv_cache s) (lv_index s)).1.1 ∧
    lv_prompt s' !! r ≫= (λ row, row !! lv_index s) = Some (token_cast i) ∧
    ((∀ k, k < shape1 (next (lv_prompt s) (lv_cache s) (lv_index s)).1.1 →
           token_cast k = Z.of_nat k) →
     (0 ≤ token_cast i
        < Z.of_nat (shape1 (next (lv_prompt s) (lv_cache s) (lv_index s)).1.1))%Z).
Proof.
  intros HV Hb Hmrow Hfree.
  apply body_Some in Hb as (cand & sel & toks & p1 & mc & pc & w & Hb). cbv zeta in Hb.
  destruct Hb as (_ & Htoks & _ & Hmc & Hpc & Hw & -> & _).
  destruct (written_where_free _ _ _ _ _ _ _ _ _ Hmc Hpc Hw Hmrow Hfree) as (tk & Htk & Hnew).
  apply list_lookup_fmap_Some in Htk as (t & -> & Ht).
  unfold flatten_beams in Htoks. case_decide; simplify_eq.
  assert (t ∈ concat (map (map (token_of
            (shape1 (next (lv_prompt s) (lv_cache s) (lv_index s)).1.1))) (map snd sel)))
    as Hin by (apply list_elem_of_lookup; eauto).
  apply list_elem_of_In, in_concat in Hin as (tb & Htb & Hin).
  apply list_elem_of_In, list_elem_of_fmap in Htb as (ib & -> & _).
  apply list_elem_of_In, list_elem_of_fmap in Hin as (i & -> & _).
  assert (token_of (shape1 (next (lv_prompt s) (lv_cache s) (lv_index s)).1.1) i
          < shape1 (next (lv_prompt s) (lv_cache s) (lv_index s)).1.1) as Hlt.
  { unfold token_of. apply Nat.mod_upper_bound. lia. }
  eexists. split; [exact Hlt|]. split; [done|].
  intros Hexact. rewrite (Hexact _ Hlt). lia.
Qed.
End written_tokens.

(** ** Nothing to generate *)

Lemma concat_singletons {A} (x : list A) : concat (map (λ a, [a]) x) = x.
Proof. induction x as [|a x IH]; simpl; [done|]. by rewrite IH. Qed.

Lemma take_along_axis_copies {A} (x : list A) nb i :
  i < nb →
  take_along_axis (map (replicate nb) x) (replicate (length x) [i])
    = Some (map (λ a, [a]) x).
Proof.
  intros Hi. unfold take_along_axis.
  rewrite decide_True by (by rewrite length_map, length_replicate).
  induction x as [|a x IH]; simpl; [done|].
  rewrite lookup_replicate_2 by done. simpl. by rewrite IH.
Qed.

Section nothing_to_generate.
Context {F : Type} `{!Ops F} {C H : Type}.

Lemma mapM_create_beams {A} (self : BeamSampler F) (c : list (list A)) :
  (0 ≤ num_beams self)%Z →
  mapM (create_beams self) c = Some (map (λ x, x ≫= replicate (beams self)) c).
Proof.
  intros Hnb. apply mapM_Some, Forall2_fmap_r, Forall_Forall2_diag, Forall_forall.
  intros x _. unfold create_beams. by rewrite decide_False by lia.
Qed.

(** If the start position is the end of the prompt there is nothing to
    generate: with at least one beam and without [return_all_beams] the
    call succeeds and returns the prompt as it is, whatever the oracle. *)
Theorem start_at_end_returns_prompt (self : BeamSampler F) (next : oracle F C H) prompt
    cache index mask end_token_id hidden_states :
  (1 ≤ num_beams self)%Z → argmax_in_range →
  return_all_beams self = false →
  index = shape1 prompt →
  call self next prompt cache index mask end_token_id hidden_states
    = Some (TopBeam prompt).
Proof.
  intros Hnb Hargmax Hret Hend. unfold call, call_loop, create_beams.
  rewrite !decide_False by lia. simpl.
  fold (create_beams (A := list C) self).
  rewrite (mapM_create_beams self) by lia. simpl.
  rewrite initial_log_probs_eq by done. simpl.
  replace (shape1 prompt - index) with 0 by lia. simpl.
  unfold select. simpl. rewrite unflatten_bind_replicate. simpl.
  set (row := f_zero :: replicate (beams self - 1) f_sentinel).
  assert (length row = beams self) as Hrow.
  { unfold row, beams. simpl. rewrite length_replicate. lia. }
  assert (unflatten_beams self (length prompt) (concat (replicate (length prompt) row))
          = Some (replicate (length prompt) row)) as ->.
  { unfold unflatten_beams, reshape_rows.
    assert (Forall (λ xb : list F, length xb = beams self) (replicate (length prompt) row))
      as Huni by by apply Forall_replicate.
    rewrite decide_True by by rewrite (length_concat_uniform _ _ Huni), length_replicate.
    rewrite <- (length_replicate (length prompt) row) at 1. by rewrite chunks_concat. }
  simpl. rewrite Hret.
  change (map (λ row0 : list F, [argmax row0]) (replicate (length prompt) row))
    with ((λ row0 : list F, [argmax row0]) <$> replicate (length prompt) row).
  rewrite fmap_replicate.
  rewrite take_along_axis_copies.
  - simpl. by rewrite concat_singletons.
  - rewrite <- Hrow. apply Hargmax. done.
Qed.
End nothing_to_generate.

(** ** Prompts that are finished already *)

Lemma fmap_length_bind_replicate {A} (x : list (list A)) n :
  length <$> (x ≫= replicate n) = (length <$> x) ≫= replicate n.
Proof.
  induction x as [|a x IH]; [done|].
  change ((a :: x) ≫= replicate n) with (replicate n a ++ (x ≫= replicate n)).
  rewrite fmap_app, fmap_replicate, IH. done.
Qed.

Lemma lookup_bind_replicate_pair {A B} (x : list A) (y : list B) n r a c :
  (x ≫= replicate n) !! r = Some a → (y ≫= replicate n) !! r = Some c →
  ∃ b, x !! b = Some a ∧ y !! b = Some c.
Proof.
  intros Hx Hy. assert (n ≠ 0) as Hn.
  { intros ->. apply lookup_lt_Some in Hx. rewrite length_bind_replicate in Hx. lia. }
  exists (r `div` n).
  rewrite <- (lookup_bind_replicate x n (r `div` n) (r `mod` n))
    by by apply Nat.mod_upper_bound.
  rewrite <- (lookup_bind_replicate y n (r `div` n) (r `mod` n))
    by by apply Nat.mod_upper_bound.
  rewrite <- Hx, <- Hy. pose proof (Nat.div_mod r n Hn).
  replace (r `div` n * n + r `mod` n) with r by lia. done.
Qed.

Section finished_prompts.
Context {F : Type} `{!Ops F} {C H : Type}.

(** If every row of the prompt holds the end token at a position the mask
    does not fix (with no mask: anywhere, the prompt proper included), the
    loop takes no step: the oracle is never called and the beams are the
    copies of the prompt. *)
Theorem finished_prompt_takes_no_step (self : BeamSampler F) (next : oracle F C H) prompt
    cache index mask e :
  (1 ≤ num_beams self)%Z →
  same_shape prompt (default (zeros_like prompt) mask) = true →
  (∀ b row mrow, prompt !! b = Some row →
     default (zeros_like prompt) mask !! b = Some mrow →
     ∃ p, row !! p = Some e ∧ mrow !! p = Some false) →
  ∃ s, call_loop self next prompt cache index mask (Some e) = Some (0, s) ∧
       lv_prompt s = prompt ≫= replicate (beams self) ∧ lv_index s = index.
Proof.
  intros Hnb Hshape Hdone. unfold call_loop, create_beams.
  rewrite !decide_False by lia. simpl.
  fold (create_beams (A := list C) self).
  rewrite (mapM_create_beams self) by lia. simpl.
  rewrite initial_log_probs_eq by done. simpl.
  match goal with |- context [run_loop _ _ _ ?s] => set (s0 := s) end.
  assert (cond (default (zeros_like prompt) mask ≫= replicate (beams self)) (Some e) s0
          = Some false) as Hcond.
  { unfold cond. simpl.
    assert (same_shape (prompt ≫= replicate (beams self))
              (default (zeros_like prompt) mask ≫= replicate (beams self)) = true) as ->.
    { unfold same_shape in *. apply bool_decide_eq_true in Hshape.
      apply bool_decide_eq_true. by rewrite !fmap_length_bind_replicate, Hshape. }
    f_equal. apply negb_false_iff, forallb_forall.
    intros d Hd%list_elem_of_In%list_elem_of_lookup. destruct Hd as [r Hr].
    apply lookup_zip_with_Some in Hr as (row & mrow & -> & Hrow & Hmrow).
    destruct (lookup_bind_replicate_pair _ _ _ _ _ _ Hrow Hmrow) as (b & Hb & Hb').
    apply row_done_true. eauto. }
  exists s0. split; [|done].
  destruct (shape1 prompt - index) as [|n]; cbn [run_loop]; [done|]. by rewrite Hcond.
Qed.
End finished_prompts.

(** ** The integer backend: [argmax] *)

Lemma int_argmax_head (l : list Z) :
  l ≠ [] →
  ∃ rest, merge_sort (IntBackend.by_score_desc l) (seq 0 (length l))
          = IntBackend.int_argmax l :: rest.
Proof.
  intros Hl. unfold IntBackend.int_argmax.
  destruct (merge_sort _ _) as [|i rest] eqn:Hsorted; [|by exists rest].
  pose proof (merge_sort_Permutation (IntBackend.by_score_desc l) (seq 0 (length l))) as Hp.
  rewrite Hsorted in Hp. apply Permutation_length in Hp. rewrite length_seq in Hp.
  destruct l; simplify_eq/=.
Qed.

Lemma int_argmax_in_range : argmax_in_range (F := Z).
Proof.
  intros l Hl. simpl. destruct (int_argmax_head l Hl) as [rest Hsorted].
  assert (IntBackend.int_argmax l ∈ seq 0 (length l)) as Hin.
  { rewrite <- (merge_sort_Permutation (IntBackend.by_score_desc l)), Hsorted.
    apply list_elem_of_here. }
  apply elem_of_seq in Hin. lia.
Qed.

Lemma int_argmax_greatest : argmax_greatest (F := Z).
Proof.
  intros l j x y Hne Hx Hy. simpl in *.
  assert (l ≠ []) as Hl by (by destruct l).
  destruct (int_argmax_head l Hl) as [rest Hsorted].
  pose proof (StronglySorted_merge_sort (IntBackend.by_score_desc l) (seq 0 (length l)))
    as Hs.
  rewrite Hsorted in Hs. apply StronglySorted_cons in Hs as [Hall _].
  assert (j ∈ IntBackend.int_argmax l :: rest) as Hj.
  { rewrite <- Hsorted, merge_sort_Permutation. apply elem_of_seq.
    apply lookup_lt_Some in Hx. lia. }
  apply elem_of_cons in Hj as [?|Hj]; [done|].
  rewrite Forall_forall in Hall. specialize (Hall j Hj).
  unfold IntBackend.by_score_desc in Hall.
  rewrite (list_lookup_total_correct _ _ _ Hx), (list_lookup_total_correct _ _ _ Hy) in Hall.
  by apply Z.leb_le.
Qed.

(** ** The additional properties at work *)

Lemma unflatten_then_flatten_witness :
  unflatten_beams (init IntBackend.int_sampler 2 false) 2 [1; 2; 3; 4]%Z
    = Some [[1; 2]; [3; 4]]%Z ∧
  flatten_beams (init IntBackend.int_sampler 2 false) 2 [[1; 2]; [3; 4]]%Z
    = Some [1; 2; 3; 4]%Z.
Proof.
  assert (unflatten_beams (init IntBackend.int_sampler 2 false) 2 [1; 2; 3; 4]%Z
          = Some [[1; 2]; [3; 4]]%Z) as Hun by reflexivity.
  split; [exact Hun|].
  exact (unflatten_then_flatten (init IntBackend.int_sampler 2 false) 2 _ _ Hun).
Defined.

Lemma flatten_then_unflatten_witness :
  length [[1; 2]; [3; 4]]%Z = 2 ∧
  Forall (λ xb, length xb = beams (init IntBackend.int_sampler 2 false)) [[1; 2]; [3; 4]]%Z ∧
  flatten_beams (init IntBackend.int_sampler 2 false) 2 [[1; 2]; [3; 4]]%Z
    = Some [1; 2; 3; 4]%Z ∧
  unflatten_beams (init IntBackend.int_sampler 2 false) 2 [1; 2; 3; 4]%Z
    = Some [[1; 2]; [3; 4]]%Z.
Proof.
  assert (length [[1; 2]; [3; 4]]%Z = 2) as Hlen by reflexivity.
  assert (Forall (λ xb, length xb = beams (init IntBackend.int_sampler 2 false))
            [[1; 2]; [3; 4]]%Z) as Huni by (repeat constructor).
  assert (flatten_beams (init IntBackend.int_sampler 2 false) 2 [[1; 2]; [3; 4]]%Z
          = Some [1; 2; 3; 4]%Z) as Hfl by reflexivity.
  split; [exact Hlen|]. split; [exact Huni|]. split; [exact Hfl|].
  exact (flatten_then_unflatten (init IntBackend.int_sampler 2 false) 2 _ _ Hlen Huni Hfl).
Defined.

Lemma create_beams_copies_witness :
  create_beams (init IntBackend.int_sampler 2 false) [10; 20]%Z = Some [10; 10; 20; 20]%Z ∧
  length [10; 10; 20; 20]%Z = length [10; 20]%Z * beams (init IntBackend.int_sampler 2 false) ∧
  unflatten_beams (init IntBackend.int_sampler 2 false) (length [10; 20]%Z)
                  [10; 10; 20; 20]%Z
    = Some (map (replicate (beams (init IntBackend.int_sampler 2 false))) [10; 20]%Z).
Proof.
  assert (create_beams (init IntBackend.int_sampler 2 false) [10; 20]%Z
          = Some [10; 10; 20; 20]%Z) as Hc by reflexivity.
  split; [exact Hc|].
  exact (create_beams_copies (init IntBackend.int_sampler 2 false) _ _ Hc).
Defined.

Lemma gather_beams_lookup_witness :
  let self := init IntBackend.int_sampler 2 false in
  let x := [10; 20; 30; 40]%Z in
  let y := [20; 10; 40; 40]%Z in
  let beam_indices := [[1; 0]; [1; 1]] in
  Forall (λ ib, length ib = beams self) beam_indices ∧
  gather_beams self 2 beam_indices x = Some y ∧
  length x = 2 * beams self ∧ length y = 2 * beams self ∧
  ∀ b j ib i, beam_indices !! b = Some ib → ib !! j = Some i →
    i < beams self ∧ is_Some (x !! (b * beams self + i)) ∧
    y !! (b * beams self + j) = x !! (b * beams self + i).
Proof.
  intros self x y beam_indices.
  assert (Forall (λ ib, length ib = beams self) beam_indices) as Huni
    by (repeat constructor).
  assert (gather_beams self 2 beam_indices x = Some y) as Hg by reflexivity.
  split; [exact Huni|]. split; [exact Hg|].
  exact (gather_beams_lookup self 2 beam_indices x y Huni Hg).
Defined.

Lemma no_end_token_runs_to_the_end_witness :
  ∃ steps s,
    call_loop (init IntBackend.int_sampler 2 false) (IntBackend.ramp 3)
      [[5; 0; 0; 0]]%Z None 1 None None = Some (steps, s) ∧
    steps = 4 - 1 ∧ lv_index s = 1 + (4 - 1).
Proof.
  destruct (call_loop (init IntBackend.int_sampler 2 false) (IntBackend.ramp 3)
      [[5; 0; 0; 0]]%Z None 1 None None) as [[steps s]|] eqn:Hc.
  - exists steps, s. split; [reflexivity|].
    exact (no_end_token_runs_to_the_end _ _ _ _ _ _ _ _ Hc).
  - vm_compute in Hc. discriminate Hc.
Defined.

Lemma end_token_exit_witness :
  let self := init IntBackend.int_sampler 1 false in
  let prompt := [[5; 0; 0; 0]]%Z in
  ∃ steps s,
    call_loop self (IntBackend.ramp 3) prompt None 1 None (Some 2%Z) = Some (steps, s) ∧
    (steps = shape1 prompt - 1 ∨
     ∀ r row mrow,
       lv_prompt s !! r = Some row →
       (default (zeros_like prompt) None ≫= replicate (beams self)) !! r = Some mrow →
       ∃ p, row !! p = Some 2%Z ∧ mrow !! p = Some false).
Proof.
  intros self prompt.
  destruct (call_loop self (IntBackend.ramp 3) prompt None 1 None (Some 2%Z))
    as [[steps s]|] eqn:Hc.
  - exists steps, s. split; [reflexivity|].
    exact (end_token_exit self _ prompt None 1 None 2%Z steps s Hc).
  - vm_compute in Hc. discriminate Hc.
Defined.

Lemma rows_keep_length_witness :
  let out := TopBeam (F := Z) [[5; 2; 2; 2]]%Z in
  top_k_shape (F := Z) ∧
  call (init IntBackend.int_sampler 2 false) (IntBackend.ramp 3) [[5; 0; 0; 0]]%Z None 1
       None (Some 1%Z) (None : option ()) = Some out ∧
  rows_of out 0 [5; 2; 2; 2]%Z ∧
  ∃ orow, [[5; 0; 0; 0]]%Z !! 0 = Some orow ∧ length [5; 2; 2; 2]%Z = length orow.
Proof.
  intros out.
  assert (call (init IntBackend.int_sampler 2 false) (IntBackend.ramp 3) [[5; 0; 0; 0]]%Z
            None 1 None (Some 1%Z) (None : option ()) = Some out) as Hcall
    by (vm_compute; reflexivity).
  assert (rows_of out 0 [5; 2; 2; 2]%Z) as Hrow by reflexivity.
  split; [exact int_top_k_shape|]. split; [exact Hcall|]. split; [exact Hrow|].
  exact (rows_keep_length _ _ _ _ _ _ _ _ _ 0 _ int_top_k_shape Hcall Hrow).
Defined.

Lemma unreached_positions_kept_witness :
  let self := init IntBackend.int_sampler 1 true in
  let prompt := [[5; 0; 0; 0]]%Z in
  let out := AllBeams (F := Z) [[[5; 2; 0; 0]]]%Z [[-998]]%Z in
  top_k_shape (F := Z) ∧
  call self (IntBackend.ramp 3) prompt None 1 None (Some 2%Z) (None : option ()) = Some out ∧
  ∃ steps s,
    call_loop self (IntBackend.ramp 3) prompt None 1 None (Some 2%Z) = Some (steps, s) ∧
    ∀ b row p, rows_of out b row → 1 + steps ≤ p →
      ∃ orow, prompt !! b = Some orow ∧ row !! p = orow !! p.
Proof.
  intros self prompt out.
  assert (call self (IntBackend.ramp 3) prompt None 1 None (Some 2%Z) (None : option ())
          = Some out) as Hcall by (vm_compute; reflexivity).
  split; [exact int_top_k_shape|]. split; [exact Hcall|].
  exact (unreached_positions_kept self _ prompt None 1 None (Some 2%Z) None out
           int_top_k_shape Hcall).
Defined.

Lemma beam_count_constant_witness :
  let self := init IntBackend.int_sampler 2 false in
  let prompt := [[5; 0; 0; 0]]%Z in
  ∃ steps s,
    call_loop self (IntBackend.ramp 3) prompt None 1 None None = Some (steps, s) ∧
    length (lv_prompt s) = length prompt * beams self ∧
    length (lv_log_probs s) = length prompt * beams self.
Proof.
  intros self prompt.
  destruct (call_loop self (IntBackend.ramp 3) prompt None 1 None None)
    as [[steps s]|] eqn:Hc.
  - exists steps, s. split; [reflexivity|].
    exact (beam_count_constant self _ prompt None 1 None None steps s Hc).
  - vm_compute in Hc. discriminate Hc.
Defined.

Lemma top_beam_is_best_witness :
  let self := init IntBackend.int_sampler 2 false in
  let prompt := [[5; 0; 0; 0]]%Z in
  let out := TopBeam (F := Z) [[5; 2; 2; 2]]%Z in
  argmax_greatest (F := Z) ∧ return_all_beams self = false ∧
  call self (IntBackend.ramp 3) prompt None 1 None None (None : option ()) = Some out ∧
  ∃ steps s top,
    call_loop self (IntBackend.ramp 3) prompt None 1 None None = Some (steps, s) ∧
    out = TopBeam top ∧ length top = length prompt ∧
    ∀ b, b < length prompt →
      ∃ i row, i < beams self ∧ top !! b = Some row ∧
        lv_prompt s !! (b * beams self + i) = Some row ∧
        ∀ j x y, j < beams self → j ≠ i →
          lv_log_probs s !! (b * beams self + j) = Some x →
          lv_log_probs s !! (b * beams self + i) = Some y →
          f_le x y = true.
Proof.
  intros self prompt out.
  assert (return_all_beams self = false) as Hret by reflexivity.
  assert (call self (IntBackend.ramp 3) prompt None 1 None None (None : option ())
          = Some out) as Hcall by (vm_compute; reflexivity).
  split; [exact int_argmax_greatest|]. split; [exact Hret|]. split; [exact Hcall|].
  exact (top_beam_is_best self _ prompt None 1 None None None out
           int_argmax_greatest Hret Hcall).
Defined.

Lemma generated_token_in_vocabulary_witness :
  let self := init IntBackend.int_sampler 1 false in
  let next := IntBackend.ramp 3 in
  let mask := [[false; false; false]] in
  let s : loop_vars Z () :=
    {| lv_prompt := [[5; 0; 0]]%Z; lv_cache := []; lv_index := 1; lv_log_probs := [0]%Z |} in
  let s' : loop_vars Z () :=
    {| lv_prompt := [[5; 2; 0]]%Z; lv_cache := []; lv_index := 2;
       lv_log_probs := [-998]%Z |} in
  0 < shape1 (next (lv_prompt s) (lv_cache s) (lv_index s)).1.1 ∧
  body self next 1 mask false s = Some s' ∧
  mask !! 0 = Some [false; false; false] ∧
  [false; false; false] !! lv_index s = Some false ∧
  ∃ i : nat,
    i < shape1 (next (lv_prompt s) (lv_cache s) (lv_index s)).1.1 ∧
    lv_prompt s' !! 0 ≫= (λ row, row !! lv_index s) = Some (token_cast i) ∧
    ((∀ k, k < shape1 (next (lv_prompt s) (lv_cache s) (lv_index s)).1.1 →
           token_cast k = Z.of_nat k) →
     (0 ≤ token_cast i
        < Z.of_nat (shape1 (next (lv_prompt s) (lv_cache s) (lv_index s)).1.1))%Z).
Proof.
  intros self next mask s s'.
  assert (0 < shape1 (next (lv_prompt s) (lv_cache s) (lv_index s)).1.1) as HV
    by (simpl; lia).
  assert (body self next 1 mask false s = Some s') as Hbody by (vm_compute; reflexivity).
  assert (mask !! 0 = Some [false; false; false]) as Hmrow by reflexivity.
  assert ([false; false; false] !! lv_index s = Some false) as Hfree by reflexivity.
  split; [exact HV|]. split; [exact Hbody|]. split; [exact Hmrow|]. split; [exact Hfree|].
  exact (generated_token_in_vocabulary self next 1 mask false s s' 0 _
           HV Hbody Hmrow Hfree).
Defined.

Lemma start_at_end_returns_prompt_witness :
  let self := init IntBackend.int_sampler 3 false in
  let prompt := [[5; 6]; [7; 8]]%Z in
  (1 ≤ num_beams self)%Z ∧ argmax_in_range (F := Z) ∧
  return_all_beams self = false ∧ 2 = shape1 prompt ∧
  call self (IntBackend.ramp 3) prompt None 2 None (Some 9%Z) (None : option ())
    = Some (TopBeam prompt).
Proof.
  intros self prompt.
  assert (1 ≤ num_beams self)%Z as Hnb by (simpl; lia).
  assert (return_all_beams self = false) as Hret by reflexivity.
  assert (2 = shape1 prompt) as Hend by reflexivity.
  split; [exact Hnb|]. split; [exact int_argmax_in_range|].
  split; [exact Hret|]. split; [exact Hend|].
  exact (start_at_end_returns_prompt self (IntBackend.ramp 3) prompt None 2 None
           (Some 9%Z) None Hnb int_argmax_in_range Hret Hend).
Defined.

Lemma finished_prompt_takes_no_step_witness :
  let self := init IntBackend.int_sampler 2 false in
  let prompt := [[5; 7; 0]]%Z in
  (1 ≤ num_beams self)%Z ∧
  same_shape prompt (default (zeros_like prompt) None) = true ∧
  (∀ b row mrow, prompt !! b = Some row →
     default (zeros_like prompt) None !! b = Some mrow →
     ∃ p, row !! p = Some 7%Z ∧ mrow !! p = Some false) ∧
  ∃ s, call_loop self (IntBackend.ramp 3) prompt (None : option (list (list (list ()))))
         2 None (Some 7%Z) = Some (0, s) ∧
       lv_prompt s = prompt ≫= replicate (beams self) ∧ lv_index s = 2.
Proof.
  intros self prompt.
  assert (1 ≤ num_beams self)%Z as Hnb by (simpl; lia).
  assert (same_shape prompt (default (zeros_like prompt) None) = true) as Hshape
    by reflexivity.
  assert (∀ b row mrow, prompt !! b = Some row →
            default (zeros_like prompt) None !! b = Some mrow →
            ∃ p, row !! p = Some 7%Z ∧ mrow !! p = Some false) as Hdone.
  { intros [|b] row mrow Hrow Hmrow; simplify_eq/=. by exists 1. }
  split; [exact Hnb|]. split; [exact Hshape|]. split; [exact Hdone|].
  exact (finished_prompt_takes_no_step self (IntBackend.ramp 3) prompt None 2 None 7%Z
           Hnb Hshape Hdone).
Defined.

(** ** The first expansion *)




Section first_expansion.
Context {F : Type} `{!Ops F} {C H : Type}.

End first_expansion.

Section first_expansion_claim.
Context {F : Type} `{!Ops F} {C H : Type}.

(** The selection of [select_candidates] is the one a step works with. *)
Lemma body_select_candidates (self : BeamSampler F) (next : oracle F C H) B mask has_cache
    (s s' : loop_vars F C) :
  body self next B mask has_cache s = Some s' →
  ∃ sel,
    select_candidates self next B s
      = Some (shape1 (next (lv_prompt s) (lv_cache s) (lv_index s)).1.1, sel) ∧
    lv_log_probs s' = concat (map fst sel).
Proof.
  unfold body, select_candidates. destruct (next _ _ _) as [[logits h] cache]. simpl.
  intros Hb.
  apply bind_Some in Hb as (m & -> & Hb). simpl.
  apply bind_Some in Hb as (candidates & -> & Hb). simpl.
  apply bind_Some in Hb as (selected & -> & Hb). simpl.
  apply bind_Some in Hb as (next_token & _ & Hb).
  apply bind_Some in Hb as (log_probs & Hlp & Hb).
  apply bind_Some in Hb as (prompt1 & _ & Hb).
  apply bind_Some in Hb as (cache1 & _ & Hb).
  apply bind_Some in Hb as (mask_col & _ & Hb).
  apply bind_Some in Hb as (prompt_col & _ & Hb).
  apply bind_Some in Hb as (written & _ & Hb). simplify_eq/=.
  exists selected. split; [done|].
  unfold flatten_beams in Hlp. by case_decide; simplify_eq.
Qed.

End first_expansion_claim.



